(** * AI Wealth Daily: the indicator and ranking core of [main.py]

    A shallow embedding of the numerical core of the newsletter script
    (indicator functions, signal classifier, per-ticker analyser, ranker and
    market summary) together with the properties its specification states.

    Numbers are IEEE 754 binary64 values, as numpy's [float64] has them: the
    arithmetic is the one of [SpecFloat] at precision 53 and maximal exponent
    1024, so that a division by zero yields an infinity or a NaN and raises
    nothing, exactly as the numpy scalars and pandas series of the script do.
    The pandas operations the script calls ([rolling(..).mean()],
    [ewm(..).mean()], [max], [min], [diff], [shift], [where]) are rendered as
    pandas computes them: the window operations first replace an infinite
    value by a missing one, a rolling mean is missing unless its window is
    full of values, and the exponential mean follows pandas' kernel for
    [adjust=False], missing values included; window sums are taken from left
    to right.  The market-data
    provider (yfinance) is an explicit argument: a function from a symbol and
    a period to either a table of daily bars or a raised exception. *)

From Stdlib Require Import ZArith List String Bool Lia.
From Stdlib Require Import Sorting.Sorted Sorting.Permutation.
From Stdlib Require Import SpecFloat.
Import ListNotations.

Local Open Scope string_scope.
Local Open Scope Z_scope.

(** ** binary64 arithmetic *)

Module F64.

Definition prec : Z := 53.
Definition emax : Z := 1024.

Definition t : Type := spec_float.

Definition nan : t := S754_nan.
Definition of_Z (z : Z) : t := binary_normalize prec emax z 0 false.

Definition add : t -> t -> t := SFadd prec emax.
Definition sub : t -> t -> t := SFsub prec emax.
Definition mul : t -> t -> t := SFmul prec emax.
Definition div : t -> t -> t := SFdiv prec emax.
Definition opp : t -> t := SFopp.
Definition abs : t -> t := SFabs.

Definition ltb : t -> t -> bool := SFltb.
Definition leb : t -> t -> bool := SFleb.
Definition eqb : t -> t -> bool := SFeqb.
(** Python's [x > y] and [x >= y]. *)
Definition gtb (x y : t) : bool := SFltb y x.
Definition geb (x y : t) : bool := SFleb y x.

Definition is_nan (x : t) : bool :=
  match x with S754_nan => true | _ => false end.

Definition is_finite (x : t) : bool :=
  match x with S754_zero _ | S754_finite _ _ _ => true | _ => false end.

Definition is_inf (x : t) : bool :=
  match x with S754_infinity _ => true | _ => false end.

(** [numpy.rint]: the nearest integer, ties to the even one; the sign of a
    zero result is the sign of the argument. *)
Definition rint (x : t) : t :=
  match x with
  | S754_finite s m e =>
      if 0 <=? e then x
      else
        let d := 2 ^ (- e) in
        let q := Z.pos m / d in
        let r := Z.pos m mod d in
        let n :=
          match Z.compare (2 * r) d with
          | Lt => q
          | Gt => q + 1
          | Eq => if Z.even q then q else q + 1
          end in
        binary_normalize prec emax (if s then - n else n) 0 s
  | _ => x
  end.

(** [round(x, ndigits)] on a numpy [float64] with [ndigits >= 0]: numpy
    multiplies by [10**ndigits], applies [rint] and divides again. *)
Definition round (x : t) (ndigits : Z) : t :=
  let f := of_Z (10 ^ ndigits) in
  div (rint (mul x f)) f.

(** Decimal literals of the script and of the examples: [dec n k] is the
    binary64 value nearest to [n / 10^k]. *)
Definition dec (n : Z) (k : Z) : t := div (of_Z n) (of_Z (10 ^ k)).

(** A value that is not NaN sits in a lexicographic order: its class
    (negative infinity, negative, zero, positive, positive infinity), then
    its exponent, then its mantissa, the last two negated below zero. *)
Definition rank (x : t) : Z * Z * Z :=
  match x with
  | S754_nan => (0, 0, 0)
  | S754_zero _ => (0, 0, 0)
  | S754_infinity true => (-2, 0, 0)
  | S754_infinity false => (2, 0, 0)
  | S754_finite true m e => (-1, - e, Z.neg m)
  | S754_finite false m e => (1, e, Z.pos m)
  end.

Definition lex3 (a b : Z * Z * Z) : comparison :=
  let '(a1, a2, a3) := a in
  let '(b1, b2, b3) := b in
  match a1 ?= b1 with
  | Eq => match a2 ?= b2 with
          | Eq => a3 ?= b3
          | c => c
          end
  | c => c
  end.

End F64.

Declare Scope f64_scope.
Delimit Scope f64_scope with f64.
Bind Scope f64_scope with F64.t.
Infix "+" := F64.add : f64_scope.
Infix "-" := F64.sub : f64_scope.
Infix "*" := F64.mul : f64_scope.
Infix "/" := F64.div : f64_scope.
Infix "<?" := F64.ltb : f64_scope.
Infix ">?" := F64.gtb : f64_scope.
Infix "<=?" := F64.leb : f64_scope.
Infix "=?" := F64.eqb : f64_scope.
Notation "- x" := (F64.opp x) : f64_scope.

(** ** Exceptions caught by a [try] block

    Inside a [try: ... except: return fallback] block a raised exception is
    [None]; the block's result is read off at the end. *)

Definition bind {A B : Type} (c : option A) (k : A -> option B) : option B :=
  match c with
  | Some a => k a
  | None => None
  end.

Notation "x <- c ;; k" := (bind c (fun x => k))
  (at level 61, c at next level, right associativity).

(** ** Signal classifier *)

Record signals : Type := {
  rsi_signal : string;
  trend_signal : string;
  ma_signal : string
}.

Definition get_technical_signals (rsi price sma20 sma50 : F64.t) : signals :=
  {| rsi_signal :=
       if (rsi >? F64.of_Z 70)%f64 then "Sobrecompra"
       else if (rsi <? F64.of_Z 30)%f64 then "Sobreventa"
       else "Neutral";
     trend_signal :=
       if (price >? sma20)%f64 && (sma20 >? sma50)%f64 then "Alcista"
       else if (price <? sma20)%f64 && (sma20 <? sma50)%f64 then "Bajista"
       else "Mixta/Consolidación";
     ma_signal :=
       if (sma20 >? sma50)%f64 then "Golden Cross (alcista)"
       else "Death Cross (bajista)" |}.

(** ** Series: the pandas operations the script uses

    A pandas [Series] of floats is the list of its values in chronological
    order; a missing value is NaN. *)

Module Series.

Definition t : Type := list F64.t.

(** [s.iloc[i]] for a Python index, negative ones counting from the end;
    [None] is the [IndexError] of an index out of range. *)
Definition iloc {A : Type} (s : list A) (i : Z) : option A :=
  let n := Z.of_nat (List.length s) in
  let j := if i <? 0 then i + n else i in
  if (0 <=? j) && (j <? n) then nth_error s (Z.to_nat j) else None.

Definition empty {A : Type} (s : list A) : bool :=
  match s with [] => true | _ => false end.

(** [s.shift()]: every value moves one place later, the first is missing. *)
Definition shift (s : t) : t :=
  match s with
  | [] => []
  | _ :: _ => F64.nan :: removelast s
  end.

(** Element-wise binary operation of two aligned series. *)
Fixpoint map2 (f : F64.t -> F64.t -> F64.t) (a b : t) : t :=
  match a, b with
  | x :: a', y :: b' => f x y :: map2 f a' b'
  | _, _ => []
  end.

(** [s.diff()]. *)
Definition diff (s : t) : t := map2 F64.sub s (shift s).

(** [s.where(cond, other)] with [cond] computed from [s] itself ([where]
    is reserved in Rocq). *)
Definition where_ (cond : F64.t -> bool) (other : F64.t) (s : t) : t :=
  map (fun x => if cond x then x else other) s.

Definition sum (s : t) : F64.t := fold_left F64.add s (F64.of_Z 0).

(** What pandas hands to its window kernels: an infinite value counts as
    missing. *)
Definition prep (s : t) : t :=
  map (fun x => if F64.is_inf x then F64.nan else x) s.

(** The mean of the last [w] values of [s], missing when [s] is shorter
    (the default [min_periods] of [rolling] is the window) or when one of
    them is missing, which the sum then is as well. *)
Definition window_mean (w : nat) (s : t) : F64.t :=
  if (List.length s <? w)%nat then F64.nan
  else (sum (skipn (List.length s - w) s) / F64.of_Z (Z.of_nat w))%f64.

(** [s.rolling(w).mean()]: at each position the mean of the window that
    ends there. *)
Definition rolling_mean (w : nat) (s : t) : t :=
  map (fun i => window_mean w (firstn (S i) (prep s))) (seq 0 (List.length s)).

(** [s.ewm(span=span, adjust=False).mean()], as pandas' kernel computes it
    with [alpha = 1 / (1 + com)] and [com = (span - 1) / 2].  The running
    average [weighted] starts at the first value.  At a value [cur] the
    weight [old_wt] of the past is multiplied by [1 - alpha]; a missing [cur]
    leaves the average as it is, otherwise the average becomes
    [(old_wt * weighted + alpha * cur) / (old_wt + alpha)], unless it equals
    [cur] already, and [old_wt] is 1 again.  While the average is missing it
    takes the first value that is not. *)
Fixpoint ewm_from (alpha weighted old_wt : F64.t) (s : t) : t :=
  match s with
  | [] => []
  | cur :: s' =>
      let '(weighted', old_wt') :=
        if F64.is_nan weighted then
          (if F64.is_nan cur then weighted else cur, old_wt)
        else
          let old_wt := (old_wt * (F64.of_Z 1 - alpha))%f64 in
          if F64.is_nan cur then (weighted, old_wt)
          else
            (if (weighted =? cur)%f64 then weighted
             else ((old_wt * weighted + alpha * cur) / (old_wt + alpha))%f64,
             F64.of_Z 1)
      in
      weighted' :: ewm_from alpha weighted' old_wt' s'
  end.

Definition ewm_mean (span : Z) (s : t) : t :=
  let com := (F64.of_Z (span - 1) / F64.of_Z 2)%f64 in
  let alpha := (F64.of_Z 1 / (F64.of_Z 1 + com))%f64 in
  match prep s with
  | [] => []
  | x :: s' => x :: ewm_from alpha x (F64.of_Z 1) s'
  end.

(** [max] and [min] of two values that skip a missing one, and the
    column reductions [s.max()] and [s.min()] built from them. *)
Definition max2 (a b : F64.t) : F64.t :=
  if F64.is_nan a then b else if F64.is_nan b then a
  else if (a <? b)%f64 then b else a.

Definition min2 (a b : F64.t) : F64.t :=
  if F64.is_nan a then b else if F64.is_nan b then a
  else if (b <? a)%f64 then b else a.

Definition max (s : t) : F64.t := fold_left max2 s F64.nan.
Definition min (s : t) : F64.t := fold_left min2 s F64.nan.

End Series.

(** ** Indicator engine *)

Definition calculate_rsi (prices : Series.t) (period : nat) : option F64.t :=
  let delta := Series.diff prices in
  let gain :=
    Series.rolling_mean period
      (Series.where_ (fun d => (d >? F64.of_Z 0)%f64) (F64.of_Z 0) delta) in
  let loss :=
    Series.rolling_mean period
      (map F64.opp
         (Series.where_ (fun d => (d <? F64.of_Z 0)%f64) (F64.of_Z 0) delta)) in
  let rs := Series.map2 F64.div gain loss in
  let rsi :=
    map (fun r => (F64.of_Z 100 - F64.of_Z 100 / (F64.of_Z 1 + r))%f64) rs in
  Series.iloc rsi (-1).

Definition calculate_sma (prices : Series.t) (period : nat) : option F64.t :=
  Series.iloc (Series.rolling_mean period prices) (-1).

(** [ewm] refuses a span below 1 with a [ValueError]. *)
Definition calculate_ema (prices : Series.t) (period : Z) : option F64.t :=
  if period <? 1 then None
  else Series.iloc (Series.ewm_mean period prices) (-1).

(** ** Market data *)

(** One row of the table [Ticker.history] returns; yfinance delivers the
    price columns as [float64] and the volume column as [int64]. *)
Record Bar : Type := {
  Open : F64.t;
  High : F64.t;
  Low : F64.t;
  Close : F64.t;
  Volume : Z
}.

(** [Ticker.info]: the keys the script reads, each possibly absent. *)
Record Info : Type := {
  shortName : option string;
  sector_name : option string;
  marketCap : option Z
}.

(** The provider: [history sym period] and [info sym] are [None] when the
    call raises. *)
Record Provider : Type := {
  history : string -> string -> option (list Bar);
  info : string -> option Info
}.

(** [d.get(key, default)]. *)
Definition get {A : Type} (v : option A) (default : A) : A :=
  match v with Some a => a | None => default end.

(** ** Stock analyser *)

Record stock : Type := {
  symbol : string;
  company_name : string;
  sector : string;
  current_price : F64.t;
  daily_change_pct : F64.t;
  rsi : F64.t;
  sma20 : F64.t;
  sma50 : F64.t;
  ema12 : F64.t;
  ema26 : F64.t;
  volume_ratio : F64.t;
  high_52w : F64.t;
  low_52w : F64.t;
  position_52w : F64.t;
  atr : F64.t;
  stock_signals : signals;
  market_cap : Z
}.

(** The unrounded quantities of [analyze_stock], each named as the local
    variable of the script that holds it. *)
Module Raw.

Definition closes (hist : list Bar) : Series.t := map Close hist.
Definition volumes (hist : list Bar) : Series.t :=
  map (fun b => F64.of_Z (Volume b)) hist.

Definition daily_change_pct (current_price previous_close : F64.t) : F64.t :=
  ((current_price - previous_close) / previous_close * F64.of_Z 100)%f64.

Definition position_52w (current_price high_52w low_52w : F64.t) : F64.t :=
  ((current_price - low_52w) / (high_52w - low_52w) * F64.of_Z 100)%f64.

(** [current_volume / avg_volume if avg_volume > 0 else 1]; the [1] of the
    else branch is a Python [int], kept as the float of the same value. *)
Definition volume_ratio (current_volume avg_volume : F64.t) : F64.t :=
  if (avg_volume >? F64.of_Z 0)%f64 then (current_volume / avg_volume)%f64
  else F64.of_Z 1.

(** The true range column: the row-wise maximum of [High - Low],
    [|High - Close.shift()|] and [|Low - Close.shift()|]. *)
Definition true_range (hist : list Bar) : Series.t :=
  let prev := Series.shift (closes hist) in
  let high_low := Series.map2 F64.sub (map High hist) (map Low hist) in
  let high_close := map F64.abs (Series.map2 F64.sub (map High hist) prev) in
  let low_close := map F64.abs (Series.map2 F64.sub (map Low hist) prev) in
  Series.map2 Series.max2 (Series.map2 Series.max2 high_low high_close) low_close.

End Raw.

Definition analyze_stock (yf : Provider) (sym : string) : option stock :=
  hist <- history yf sym "3mo" ;;
  if Series.empty hist || (List.length hist <? 50)%nat then None
  else
    current_price <- Series.iloc (Raw.closes hist) (-1) ;;
    previous_close <- Series.iloc (Raw.closes hist) (-2) ;;
    let daily_change_pct := Raw.daily_change_pct current_price previous_close in
    let high_52w := Series.max (map High hist) in
    let low_52w := Series.min (map Low hist) in
    let position_52w := Raw.position_52w current_price high_52w low_52w in
    avg_volume <- Series.iloc (Series.rolling_mean 20 (Raw.volumes hist)) (-1) ;;
    current_volume <- Series.iloc (Raw.volumes hist) (-1) ;;
    let volume_ratio := Raw.volume_ratio current_volume avg_volume in
    rsi <- calculate_rsi (Raw.closes hist) 14 ;;
    sma20 <- calculate_sma (Raw.closes hist) 20 ;;
    sma50 <- calculate_sma (Raw.closes hist) 50 ;;
    ema12 <- calculate_ema (Raw.closes hist) 12 ;;
    ema26 <- calculate_ema (Raw.closes hist) 26 ;;
    let signals := get_technical_signals rsi current_price sma20 sma50 in
    atr <- Series.iloc (Series.rolling_mean 14 (Raw.true_range hist)) (-1) ;;
    inf <- info yf sym ;;
    Some {| symbol := sym;
            company_name := get (shortName inf) sym;
            sector := get (sector_name inf) "N/A";
            current_price := F64.round current_price 2;
            daily_change_pct := F64.round daily_change_pct 2;
            rsi := F64.round rsi 1;
            sma20 := F64.round sma20 2;
            sma50 := F64.round sma50 2;
            ema12 := F64.round ema12 2;
            ema26 := F64.round ema26 2;
            volume_ratio := F64.round volume_ratio 2;
            high_52w := F64.round high_52w 2;
            low_52w := F64.round low_52w 2;
            position_52w := F64.round position_52w 1;
            atr := F64.round atr 2;
            stock_signals := signals;
            market_cap := get (marketCap inf) 0 |}.

(** ** Market scanner and ranker *)

Definition WATCHLIST : list string :=
  [ "AAPL"; "MSFT"; "GOOGL"; "AMZN"; "META"; "NVDA"; "TSLA"; "NFLX";
    "JPM"; "BAC"; "WFC"; "GS"; "MS";
    "XOM"; "CVX"; "COP"; "SLB";
    "JNJ"; "PFE"; "UNH"; "ABBV"; "MRK";
    "WMT"; "COST"; "PG"; "KO"; "PEP"; "MCD";
    "BA"; "CAT"; "GE"; "HON"; "UPS";
    "COIN"; "MSTR"; "RIOT"; "MARA";
    "SPY"; "QQQ"; "IWM"; "VIX" ].

(** An analysis record once [get_top_movers] has stored the key
    ['movement_score'] in it. *)
Record mover : Type := {
  data : stock;
  movement_score : F64.t
}.

Definition with_score (d : stock) : mover :=
  {| data := d;
     movement_score := (F64.abs (daily_change_pct d) * volume_ratio d)%f64 |}.

(** The loop of [get_top_movers]: the list [analyzed_stocks] after the scan. *)
Definition analyzed_stocks (yf : Provider) (watchlist : list string) : list mover :=
  fold_left
    (fun acc sym =>
       match analyze_stock yf sym with
       | Some d => (acc ++ [with_score d])%list
       | None => acc
       end)
    watchlist [].

(** [l.sort(key=key, reverse=True)].  Python's sort compares keys with [<]
    only and is stable, also when reversed; on keys that [<] orders totally
    this determines the result, which is computed here by insertion. *)
Section Sort.
Context {A : Type} (key : A -> F64.t).

Fixpoint insert_reverse (x : A) (l : list A) : list A :=
  match l with
  | [] => [x]
  | y :: l' =>
      if (key x <? key y)%f64 then y :: insert_reverse x l'
      else x :: y :: l'
  end.

Definition sort_reverse (l : list A) : list A :=
  fold_right insert_reverse [] l.
End Sort.

(** [l[:stop]] for a Python integer [stop]. *)
Definition slice_to {A : Type} (l : list A) (stop : Z) : list A :=
  if 0 <=? stop then firstn (Z.to_nat stop) l
  else firstn (List.length l - Z.to_nat (- stop)) l.

Definition get_top_movers_of (watchlist : list string) (yf : Provider) (limit : Z)
  : list mover :=
  slice_to (sort_reverse movement_score (analyzed_stocks yf watchlist)) limit.

Definition get_top_movers (yf : Provider) (limit : Z) : list mover :=
  get_top_movers_of WATCHLIST yf limit.

(** ** Market summary *)

(** The values a field of the summary dictionary can hold. *)
Inductive pyval : Type :=
  | PyFloat (x : F64.t)
  | PyInt (n : Z)
  | PyStr (s : string).

Record market_summary : Type := {
  spy_change : pyval;
  qqq_change : pyval;
  vix : pyval;
  spy_trend : pyval
}.

(** [round(((c.iloc[-1] - c.iloc[-2]) / c.iloc[-2]) * 100, 2)] *)
Definition change_pct (c : Series.t) : option F64.t :=
  last <- Series.iloc c (-1) ;;
  prev <- Series.iloc c (-2) ;;
  Some (F64.round ((last - prev) / prev * F64.of_Z 100)%f64 2).

Definition summary_fallback : market_summary :=
  {| spy_change := PyInt 0;
     qqq_change := PyInt 0;
     vix := PyStr "N/A";
     spy_trend := PyStr "N/A" |}.

Definition get_market_summary (yf : Provider) : market_summary :=
  let body :=
    spy <- history yf "SPY" "5d" ;;
    qqq <- history yf "QQQ" "5d" ;;
    vix <- history yf "^VIX" "1d" ;;
    spy_change <- change_pct (Raw.closes spy) ;;
    qqq_change <- change_pct (Raw.closes qqq) ;;
    vix_value <-
      (if negb (Series.empty vix)
       then v <- Series.iloc (Raw.closes vix) (-1) ;; Some (PyFloat (F64.round v 2))
       else Some (PyStr "N/A")) ;;
    spy_last <- Series.iloc (Raw.closes spy) (-1) ;;
    spy_first <- Series.iloc (Raw.closes spy) (-5) ;;
    Some {| spy_change := PyFloat spy_change;
            qqq_change := PyFloat qqq_change;
            vix := vix_value;
            spy_trend :=
              PyStr (if (spy_last >? spy_first)%f64 then "Alcista" else "Bajista") |}
  in
  match body with
  | Some summary => summary
  | None => summary_fallback
  end.


(** ** The local variables of [analyze_stock]

    The values [analyze_stock] holds before it rounds them into the record,
    under the names they have in the script. *)

Module Locals.

Record t : Type := {
  current_price : F64.t;
  previous_close : F64.t;
  daily_change_pct : F64.t;
  high_52w : F64.t;
  low_52w : F64.t;
  position_52w : F64.t;
  avg_volume : F64.t;
  current_volume : F64.t;
  volume_ratio : F64.t;
  rsi : F64.t;
  sma20 : F64.t;
  sma50 : F64.t;
  ema12 : F64.t;
  ema26 : F64.t;
  atr : F64.t
}.

Definition of_hist (hist : list Bar) : option t :=
  current_price <- Series.iloc (Raw.closes hist) (-1) ;;
  previous_close <- Series.iloc (Raw.closes hist) (-2) ;;
  avg_volume <- Series.iloc (Series.rolling_mean 20 (Raw.volumes hist)) (-1) ;;
  current_volume <- Series.iloc (Raw.volumes hist) (-1) ;;
  rsi <- calculate_rsi (Raw.closes hist) 14 ;;
  sma20 <- calculate_sma (Raw.closes hist) 20 ;;
  sma50 <- calculate_sma (Raw.closes hist) 50 ;;
  ema12 <- calculate_ema (Raw.closes hist) 12 ;;
  ema26 <- calculate_ema (Raw.closes hist) 26 ;;
  atr <- Series.iloc (Series.rolling_mean 14 (Raw.true_range hist)) (-1) ;;
  let high_52w := Series.max (map High hist) in
  let low_52w := Series.min (map Low hist) in
  Some {| current_price := current_price;
          previous_close := previous_close;
          daily_change_pct := Raw.daily_change_pct current_price previous_close;
          high_52w := high_52w;
          low_52w := low_52w;
          position_52w := Raw.position_52w current_price high_52w low_52w;
          avg_volume := avg_volume;
          current_volume := current_volume;
          volume_ratio := Raw.volume_ratio current_volume avg_volume;
          rsi := rsi;
          sma20 := sma20;
          sma50 := sma50;
          ema12 := ema12;
          ema26 := ema26;
          atr := atr |}.

End Locals.

(** The record [analyze_stock] returns for these values. *)
Definition record_of (sym : string) (inf : Info) (v : Locals.t) : stock :=
  {| symbol := sym;
     company_name := get (shortName inf) sym;
     sector := get (sector_name inf) "N/A";
     current_price := F64.round (Locals.current_price v) 2;
     daily_change_pct := F64.round (Locals.daily_change_pct v) 2;
     rsi := F64.round (Locals.rsi v) 1;
     sma20 := F64.round (Locals.sma20 v) 2;
     sma50 := F64.round (Locals.sma50 v) 2;
     ema12 := F64.round (Locals.ema12 v) 2;
     ema26 := F64.round (Locals.ema26 v) 2;
     volume_ratio := F64.round (Locals.volume_ratio v) 2;
     high_52w := F64.round (Locals.high_52w v) 2;
     low_52w := F64.round (Locals.low_52w v) 2;
     position_52w := F64.round (Locals.position_52w v) 1;
     atr := F64.round (Locals.atr v) 2;
     stock_signals :=
       get_technical_signals (Locals.rsi v) (Locals.current_price v) (Locals.sma20 v) (Locals.sma50 v);
     market_cap := get (marketCap inf) 0 |}.

(** ** Statements of the specification *)

(** [price > sma20 > sma50], both comparisons strict *)
Definition bullish (price sma20 sma50 : F64.t) : Prop :=
(price >? sma20)%f64 = true /\ (sma20 >? sma50)%f64 = true.

(** [price < sma20 < sma50], both comparisons strict *)
Definition bearish (price sma20 sma50 : F64.t) : Prop :=
(price <? sma20)%f64 = true /\ (sma20 <? sma50)%f64 = true.

Section SortSpec.
Context {A : Type} (key : A -> F64.t).

(** [a] may stand before [b] in a descending list: [key a >= key b]. *)
Definition before (a b : A) : Prop := F64.geb (key a) (key b) = true.

Definition descending (l : list A) : Prop := StronglySorted before l.

(** The elements whose key equals [v], in the order of the list. *)
Definition with_key (v : F64.t) (l : list A) : list A :=
filter (fun a => (key a =? v)%f64) l.

(** [l'] keeps elements of equal key in the order they have in [l]. *)
Definition stable (l l' : list A) : Prop :=
forall v, with_key v l' = with_key v l.

Definition no_nan (l : list A) : Prop :=
Forall (fun a => F64.is_nan (key a) = false) l.

End SortSpec.

(** What the scan collects for one symbol. *)
Definition records_of (yf : Provider) (sym : string) : list mover :=
  match analyze_stock yf sym with
  | Some d => [with_score d]
  | None => []
  end.

(** Every numeric field of the record [d] is the local variable of the same
    name rounded: to one decimal for the RSI and the 52-week position, to two
    for the others. *)
Definition rounded (v : Locals.t) (d : stock) : Prop :=
  current_price d = F64.round (Locals.current_price v) 2 /\
  daily_change_pct d = F64.round (Locals.daily_change_pct v) 2 /\
  sma20 d = F64.round (Locals.sma20 v) 2 /\
  sma50 d = F64.round (Locals.sma50 v) 2 /\
  ema12 d = F64.round (Locals.ema12 v) 2 /\
  ema26 d = F64.round (Locals.ema26 v) 2 /\
  volume_ratio d = F64.round (Locals.volume_ratio v) 2 /\
  high_52w d = F64.round (Locals.high_52w v) 2 /\
  low_52w d = F64.round (Locals.low_52w v) 2 /\
  atr d = F64.round (Locals.atr v) 2 /\
  rsi d = F64.round (Locals.rsi v) 1 /\
  position_52w d = F64.round (Locals.position_52w v) 1.

(** The integer [k] is the one nearest to the number of sign [s], mantissa
    [m] and exponent [e], which is [m * 2^e] or its opposite; of the two
    integers at the same distance the even one is taken. *)
Definition nearest_integer (s : bool) (m : positive) (e : Z) (k : Z) : Prop :=
  let v := if s then Z.neg m else Z.pos m in
  if 0 <=? e then k = v * 2 ^ e
  else
    let d := 2 ^ (- e) in
    2 * Z.abs (k * d - v) < d \/
    (2 * Z.abs (k * d - v) = d /\ Z.even k = true).

(** [r] is [x] rounded to [n] decimals: the product [x * 10^n] is taken to
    the nearest integer [k], and [r] is the float of [k] (a zero keeping the
    sign of the product) divided by [10^n].  A product that is zero,
    infinite, NaN or too large to have a fractional part is divided as it
    is. *)
Definition rounded_to (n : Z) (x r : F64.t) : Prop :=
  match (x * F64.of_Z (10 ^ n))%f64 with
  | S754_finite s m e =>
      if 0 <=? e
      then r = (S754_finite s m e / F64.of_Z (10 ^ n))%f64
      else
        exists k,
          nearest_integer s m e k /\
          r = ((if (k =? 0)%Z then S754_zero s else F64.of_Z k)
               / F64.of_Z (10 ^ n))%f64
  | y => r = (y / F64.of_Z (10 ^ n))%f64
  end.

(** Every numeric field of the record [d] is the local variable of the same
    name rounded to two decimals, to one for the RSI and the 52-week
    position. *)
Definition decimals (v : Locals.t) (d : stock) : Prop :=
  rounded_to 2 (Locals.current_price v) (current_price d) /\
  rounded_to 2 (Locals.daily_change_pct v) (daily_change_pct d) /\
  rounded_to 2 (Locals.sma20 v) (sma20 d) /\
  rounded_to 2 (Locals.sma50 v) (sma50 d) /\
  rounded_to 2 (Locals.ema12 v) (ema12 d) /\
  rounded_to 2 (Locals.ema26 v) (ema26 d) /\
  rounded_to 2 (Locals.volume_ratio v) (volume_ratio d) /\
  rounded_to 2 (Locals.high_52w v) (high_52w d) /\
  rounded_to 2 (Locals.low_52w v) (low_52w d) /\
  rounded_to 2 (Locals.atr v) (atr d) /\
  rounded_to 1 (Locals.rsi v) (rsi d) /\
  rounded_to 1 (Locals.position_52w v) (position_52w d).

(** The ranking [get_top_movers] is to return from the scanned records:
    the first [limit] of them once sorted by descending score, records of
    equal score in scan order. *)
Definition ranked_shortlist (scanned : list mover) (limit : Z)
  (result : list mover) : Prop :=
  exists sorted,
    Permutation sorted scanned /\
    descending movement_score sorted /\
    stable movement_score scanned sorted /\
    result = firstn (Z.to_nat limit) sorted.

(** The history of a ticker is too short to analyse. *)
Definition insufficient_data (yf : Provider) (sym : string) : Prop :=
  exists hist,
    history yf sym "3mo" = Some hist /\ (List.length hist < 50)%nat.

(** The mean volume of the last 20 bars is zero. *)
Definition zero_mean_volume (hist : list Bar) : Prop :=
  exists avg,
    Series.iloc (Series.rolling_mean 20 (Raw.volumes hist)) (-1) = Some avg /\
    (avg =? F64.of_Z 0)%f64 = true.

(** The two trailing averages [calculate_rsi] divides, at the latest bar,
    and the value it computes from them. *)
Definition avg_gain (prices : Series.t) (period : nat) : option F64.t :=
  Series.iloc
    (Series.rolling_mean period
       (Series.where_ (fun d => (d >? F64.of_Z 0)%f64) (F64.of_Z 0)
          (Series.diff prices))) (-1).

Definition avg_loss (prices : Series.t) (period : nat) : option F64.t :=
  Series.iloc
    (Series.rolling_mean period
       (map F64.opp
          (Series.where_ (fun d => (d <? F64.of_Z 0)%f64) (F64.of_Z 0)
             (Series.diff prices)))) (-1).

Definition rsi_of (gain loss : F64.t) : F64.t :=
  (F64.of_Z 100 - F64.of_Z 100 / (F64.of_Z 1 + gain / loss))%f64.

(** A price table is flat: every bar has the same finite high, low and
    close. *)
Definition flat (hist : list Bar) (v : F64.t) : Prop :=
  F64.is_finite v = true /\
  Forall (fun b => High b = v /\ Low b = v /\ Close b = v) hist.

(** The score of a ranked record is the product of the unrounded daily
    change (in absolute value) and the unrounded volume ratio. *)
Definition score_of_raw_values (yf : Provider) (m : mover) : Prop :=
  exists hist v,
    history yf (symbol (data m)) "3mo" = Some hist /\
    Locals.of_hist hist = Some v /\
    movement_score m =
      (F64.abs (Locals.daily_change_pct v) * Locals.volume_ratio v)%f64.

(** The score of a ranked record is the product of the daily change and the
    volume ratio as the record stores them, rounded to two decimals. *)
Definition score_of_rounded_values (yf : Provider) (m : mover) : Prop :=
  exists hist v,
    history yf (symbol (data m)) "3mo" = Some hist /\
    Locals.of_hist hist = Some v /\
    movement_score m =
      (F64.abs (F64.round (Locals.daily_change_pct v) 2)
       * F64.round (Locals.volume_ratio v) 2)%f64.

(** A fetch of the market summary raises. *)
Definition fetch_fails (yf : Provider) : Prop :=
  history yf "SPY" "5d" = None \/
  history yf "QQQ" "5d" = None \/
  history yf "^VIX" "1d" = None.

(** A benchmark series is too short for the indices the summary reads:
    [iloc[-5]] of SPY, [iloc[-2]] of QQQ. *)
Definition benchmark_too_short (yf : Provider) : Prop :=
  (exists spy,
      history yf "SPY" "5d" = Some spy /\ (List.length spy < 5)%nat) \/
  (exists qqq,
      history yf "QQQ" "5d" = Some qqq /\ (List.length qqq < 2)%nat).

(** The marker of a value that is not available. *)
Definition unavailable (v : pyval) : Prop := v = PyStr "N/A".

Definition all_unavailable (s : market_summary) : Prop :=
  unavailable (spy_change s) /\ unavailable (qqq_change s) /\
  unavailable (vix s) /\ unavailable (spy_trend s).

(** ** Sample market data *)

Module Sample.

(** A bar whose four prices are [price]. *)
Definition bar (price volume : Z) : Bar :=
  {| Open := F64.of_Z price; High := F64.of_Z price; Low := F64.of_Z price;
     Close := F64.of_Z price; Volume := volume |}.

(** A bar whose close is missing. *)
Definition gap (price volume : Z) : Bar :=
  {| Open := F64.of_Z price; High := F64.of_Z price; Low := F64.of_Z price;
     Close := F64.nan; Volume := volume |}.

(** 59 equal bars followed by a last one. *)
Definition series (price volume : Z) (last : Bar) : list Bar :=
  (repeat (bar price volume) 59 ++ [last])%list.

Definition table : list (string * list Bar) :=
  [ ("FLAT", repeat (bar 100 1000) 60);
    ("SHORT", repeat (bar 100 1000) 10);
    ("EMPTY", []);
    ("ZEROVOL", series 100 0 (bar 101 0));
    ("A", series 100 9 (bar 105 19));
    ("B", series 100 1000 (bar 92 1000));
    ("UP", series 100 1000 (bar 103 3000));
    ("UP2", series 100 1000 (bar 103 3000));
    ("THIRD", series 3 1000 (bar 4 1000));
    ("GAP", series 100 1000 (gap 100 1000)) ].

Fixpoint lookup (sym : string) (t : list (string * list Bar)) : option (list Bar) :=
  match t with
  | [] => None
  | (s, h) :: t' => if String.eqb s sym then Some h else lookup sym t'
  end.

(** A provider that serves [table], raises for any other symbol and knows
    no company details. *)
Definition yf : Provider :=
  {| history := fun sym _ => lookup sym table;
     info := fun _ =>
       Some {| shortName := None; sector_name := None; marketCap := None |} |}.

(** A provider whose every call raises. *)
Definition down : Provider :=
  {| history := fun _ _ => None; info := fun _ => None |}.

End Sample.

(** ** Publisher

    [send_to_beehiiv] posts one request and reads the answer.  The HTTP
    transport ([requests.post]) is an explicit argument, [None] when it
    raises; the key and the publication identifier, module constants of the
    script, are the fields of a configuration. *)

(** A parsed JSON document, as [response.json()] returns it. *)
#[local] Unset Elimination Schemes.
Inductive json : Type :=
| JNull
| JBool (b : bool)
| JNum (n : Z)
| JStr (s : string)
| JArr (items : list json)
| JObj (fields : list (string * json)).
#[local] Set Elimination Schemes.

Record Config : Type := {
  BEEHIIV_API_KEY : string;
  BEEHIIV_PUBLICATION_ID : string
}.

Record payload : Type := {
  publication_id : string;
  title : string;
  content : string;
  status : string;
  send_at : option string
}.

Record request : Type := {
  url : string;
  headers : list (string * string);
  body : payload
}.

(** The answer: its status code and its body, [None] when [response.json()]
    raises on it. *)
Record response : Type := {
  status_code : Z;
  json_body : option json
}.

Fixpoint assoc (key : string) (fields : list (string * json)) : option json :=
  match fields with
  | [] => None
  | (k, v) :: rest => if String.eqb k key then Some v else assoc key rest
  end.

(** [d.get(key, default)] on a parsed document: only a JSON object has the
    method, on anything else the call raises [AttributeError]. *)
Definition json_get (d : json) (key : string) (default : json) : option json :=
  match d with
  | JObj fields => Some (get (assoc key fields) default)
  | _ => None
  end.

(** The request [send_to_beehiiv] builds. *)
Definition beehiiv_request (cfg : Config) (subject html_content : string)
  : request :=
  {| url := "https://api.beehiiv.com/v2/posts";
     headers :=
       [ ("Authorization", "Bearer " ++ BEEHIIV_API_KEY cfg);
         ("Content-Type", "application/json") ];
     body :=
       {| publication_id := BEEHIIV_PUBLICATION_ID cfg;
          title := subject;
          content := html_content;
          status := "draft";
          send_at := None |} |}.

Definition send_to_beehiiv (cfg : Config) (post : request -> option response)
  (subject html_content : string) : bool :=
  let attempt :=
    response <- post (beehiiv_request cfg subject html_content) ;;
    if (status_code response =? 200) || (status_code response =? 201)
    then
      data <- json_body response ;;
      created <- json_get data "data" (JObj []) ;;
      _ <- json_get created "id" (JStr "N/A") ;;
      Some true
    else Some false
  in
  match attempt with
  | Some sent => sent
  | None => false
  end.

(** ** Further statements *)

(** The sign bit of a value is clear, or the value is NaN. *)
Definition sign_clear (x : F64.t) : bool :=
  match x with
  | S754_nan => true
  | S754_zero s | S754_infinity s | S754_finite s _ _ => negb s
  end.

(** [analyze_stock] returns a record for the symbol. *)
Definition analysed (yf : Provider) (sym : string) : bool :=
  match analyze_stock yf sym with
  | Some _ => true
  | None => false
  end.

(** The answer reports a created post in the shape the script reads: status
    200 or 201 and a JSON object whose key ["data"], when present, holds an
    object. *)
Definition created_post (r : response) : Prop :=
  (status_code r = 200 \/ status_code r = 201) /\
  exists fields,
    json_body r = Some (JObj fields) /\
    (assoc "data" fields = None \/
     exists inner, assoc "data" fields = Some (JObj inner)).

(** No volume of the table is negative. *)
Definition volumes_nonneg (hist : list Bar) : Prop :=
  Forall (fun b => 0 <= Volume b) hist.

(** ** Further sample data *)

Module Cases.

(** A ticker whose close was 0 for 59 bars and is 1 at the latest. *)
Definition zero_then_one : list Bar :=
  Sample.series 0 1000 (Sample.bar 1 1000).

Definition no_details : Info :=
  {| shortName := None; sector_name := None; marketCap := None |}.

Definition yf : Provider :=
  {| history := fun sym _ =>
       if String.eqb sym "ZERO" then Some zero_then_one else None;
     info := fun _ => Some no_details |}.

(** A flat week of both benchmarks and an empty volatility table. *)
Definition week : Provider :=
  {| history := fun sym _ =>
       if String.eqb sym "SPY" || String.eqb sym "QQQ"
       then Some (repeat (Sample.bar 100 1000) 5)
       else if String.eqb sym "^VIX" then Some [] else None;
     info := fun _ => None |}.

End Cases.

(** No string occurs twice in the list. *)
Fixpoint no_repeat (l : list string) : bool :=
  match l with
  | [] => true
  | x :: rest => negb (existsb (String.eqb x) rest) && no_repeat rest
  end.
(** * Properties *)

(** ** The order of binary64 values *)

Module F64Facts.

Lemma compare_rank (x y : F64.t) :
  F64.is_nan x = false -> F64.is_nan y = false ->
  SFcompare x y = Some (F64.lex3 (F64.rank x) (F64.rank y)).
Proof.
  destruct x as [sx | sx | | sx mx ex], y as [sy | sy | | sy my ey];
    try discriminate; intros _ _;
    try (destruct sx); try (destruct sy); try reflexivity.
  cbn [SFcompare F64.rank F64.lex3]. change (-1 ?= -1) with Eq. cbv iota.
  rewrite Z.compare_opp, (Z.compare_antisym ex ey).
  destruct (ex ?= ey); reflexivity.
Qed.

Lemma lex3_antisym a b : F64.lex3 b a = CompOpp (F64.lex3 a b).
Proof.
  destruct a as [[a1 a2] a3], b as [[b1 b2] b3]. unfold F64.lex3.
  rewrite (Z.compare_antisym a1 b1), (Z.compare_antisym a2 b2),
    (Z.compare_antisym a3 b3).
  destruct (a1 ?= b1), (a2 ?= b2), (a3 ?= b3); reflexivity.
Qed.

Lemma lex3_le_trans a b c :
  F64.lex3 a b <> Gt -> F64.lex3 b c <> Gt -> F64.lex3 a c <> Gt.
Proof.
  destruct a as [[a1 a2] a3], b as [[b1 b2] b3], c as [[c1 c2] c3].
  unfold F64.lex3.
  destruct (Z.compare_spec a1 b1), (Z.compare_spec b1 c1),
    (Z.compare_spec a1 c1); try lia; try congruence;
    destruct (Z.compare_spec a2 b2), (Z.compare_spec b2 c2),
      (Z.compare_spec a2 c2); try lia; try congruence;
    destruct (Z.compare_spec a3 b3), (Z.compare_spec b3 c3),
      (Z.compare_spec a3 c3); try lia; congruence.
Qed.

Lemma compare_some_not_nan x y c :
  SFcompare x y = Some c -> F64.is_nan x = false /\ F64.is_nan y = false.
Proof.
  destruct x, y; try discriminate; auto.
Qed.

Lemma compare_antisym x y c :
  SFcompare x y = Some c -> SFcompare y x = Some (CompOpp c).
Proof.
  intros H. destruct (compare_some_not_nan _ _ _ H) as [Hx Hy].
  rewrite compare_rank in H by assumption.
  rewrite compare_rank by assumption.
  rewrite lex3_antisym. congruence.
Qed.

(** Equal values are not ordered strictly, in either direction. *)
Lemma eqb_not_ltb x y :
  F64.eqb x y = true -> F64.ltb x y = false /\ F64.ltb y x = false.
Proof.
  unfold F64.eqb, F64.ltb, SFeqb, SFltb.
  destruct (SFcompare x y) as [[]|] eqn:E; try discriminate.
  intros _. now rewrite (compare_antisym _ _ _ E).
Qed.

Lemma ltb_leb x y : F64.ltb x y = true -> F64.leb x y = true.
Proof.
  unfold F64.ltb, F64.leb, SFltb, SFleb.
  now destruct (SFcompare x y) as [[]|].
Qed.

Lemma ltb_asym x y : F64.ltb x y = true -> F64.ltb y x = false.
Proof.
  unfold F64.ltb, SFltb.
  destruct (SFcompare x y) as [[]|] eqn:E; try discriminate.
  intros _. now rewrite (compare_antisym _ _ _ E).
Qed.

(** Without NaN the order is total ... *)
Lemma not_ltb_geb x y :
  F64.is_nan x = false -> F64.is_nan y = false ->
  F64.ltb x y = false -> F64.leb y x = true.
Proof.
  intros Hx Hy. unfold F64.ltb, F64.leb, SFltb, SFleb.
  rewrite (compare_rank y x), (compare_rank x y) by assumption.
  rewrite (lex3_antisym (F64.rank x) (F64.rank y)).
  now destruct (F64.lex3 (F64.rank x) (F64.rank y)).
Qed.

(** ... and transitive. *)
Lemma leb_trans x y z :
  F64.leb x y = true -> F64.leb y z = true -> F64.leb x z = true.
Proof.
  unfold F64.leb, SFleb.
  destruct (SFcompare x y) as [c1|] eqn:E1; try discriminate.
  destruct (SFcompare y z) as [c2|] eqn:E2; try discriminate.
  destruct (compare_some_not_nan _ _ _ E1) as [Hx Hy].
  destruct (compare_some_not_nan _ _ _ E2) as [_ Hz].
  rewrite compare_rank in E1, E2 by assumption.
  rewrite compare_rank by assumption.
  injection E1 as <-. injection E2 as <-.
  intros H1 H2.
  pose proof (lex3_le_trans (F64.rank x) (F64.rank y) (F64.rank z)) as T.
  destruct (F64.lex3 (F64.rank x) (F64.rank y)); try discriminate;
    destruct (F64.lex3 (F64.rank y) (F64.rank z)); try discriminate;
    destruct (F64.lex3 (F64.rank x) (F64.rank z)); try reflexivity;
    exfalso; apply T; congruence.
Qed.

(** Two keys equal to a third one are not ordered strictly. *)
Lemma eqb_eqb_not_ltb x y v :
  F64.eqb x v = true -> F64.eqb y v = true -> F64.ltb x y = false.
Proof.
  unfold F64.eqb, F64.ltb, SFeqb, SFltb.
  destruct (SFcompare x v) as [c1|] eqn:E1; try discriminate.
  destruct (SFcompare y v) as [c2|] eqn:E2; try discriminate.
  destruct (compare_some_not_nan _ _ _ E1) as [Hx Hv].
  destruct (compare_some_not_nan _ _ _ E2) as [Hy _].
  rewrite compare_rank in E1, E2 by assumption.
  rewrite compare_rank by assumption.
  injection E1 as <-. injection E2 as <-.
  destruct (F64.rank x) as [[a1 a2] a3], (F64.rank y) as [[b1 b2] b3],
    (F64.rank v) as [[c1 c2] c3]. unfold F64.lex3.
  destruct (Z.compare_spec a1 c1); try discriminate;
    destruct (Z.compare_spec a2 c2); try discriminate;
    destruct (Z.compare_spec a3 c3); try discriminate; intros _.
  destruct (Z.compare_spec b1 c1); try discriminate;
    destruct (Z.compare_spec b2 c2); try discriminate;
    destruct (Z.compare_spec b3 c3); try discriminate; intros _.
  subst. now rewrite !Z.compare_refl.
Qed.

End F64Facts.

(** ** Signal classifier *)

Section Signals.
Variables rsi price sma20 sma50 : F64.t.

Lemma bullish_not_bearish :
  bullish price sma20 sma50 -> ~ bearish price sma20 sma50.
Proof.
  intros [H _] [H' _]. unfold F64.gtb in H.
  apply F64Facts.ltb_asym in H. unfold F64.ltb in *. congruence.
Qed.

(** C7: the trend signal is "Alcista" (Bullish) exactly when
    [price > sma20] and [sma20 > sma50] both hold strictly, "Bajista"
    (Bearish) exactly when [price < sma20] and [sma20 < sma50] both hold
    strictly, and "Mixta/Consolidación" (Mixed) in every other case; a
    price equal to SMA20 gives Mixed. *)
Theorem trend_signal_spec :
  let s := get_technical_signals rsi price sma20 sma50 in
  (trend_signal s = "Alcista" <-> bullish price sma20 sma50) /\
  (trend_signal s = "Bajista" <-> bearish price sma20 sma50) /\
  (trend_signal s = "Mixta/Consolidación"
   <-> ~ bullish price sma20 sma50 /\ ~ bearish price sma20 sma50) /\
  ((price =? sma20)%f64 = true -> trend_signal s = "Mixta/Consolidación").
Proof.
  pose proof bullish_not_bearish as X.
  assert (E : (price =? sma20)%f64 = true ->
              (price >? sma20)%f64 = false /\ (price <? sma20)%f64 = false).
  { intros H. apply F64Facts.eqb_not_ltb in H. unfold F64.gtb, F64.ltb in *.
    tauto. }
  unfold bullish, bearish in *. cbv zeta.
  cbn [trend_signal get_technical_signals].
  destruct (price >? sma20)%f64, (sma20 >? sma50)%f64,
    (price <? sma20)%f64, (sma20 <? sma50)%f64; cbn [andb];
    repeat split; intros; try discriminate; try tauto;
    try (destruct E as [? ?]; [assumption | discriminate]);
    try (exfalso; tauto);
    try (intros [? ?]; discriminate).
Qed.

(** C8: the moving-average signal is "Golden Cross (alcista)" exactly when
    [sma20 > sma50] strictly and "Death Cross (bajista)" otherwise; equal
    averages give the Death Cross. *)
Theorem ma_signal_spec :
  let s := get_technical_signals rsi price sma20 sma50 in
  (ma_signal s = "Golden Cross (alcista)" <-> (sma20 >? sma50)%f64 = true) /\
  (ma_signal s = "Death Cross (bajista)" <-> (sma20 >? sma50)%f64 = false) /\
  ((sma20 =? sma50)%f64 = true -> ma_signal s = "Death Cross (bajista)").
Proof.
  assert (E : (sma20 =? sma50)%f64 = true -> (sma20 >? sma50)%f64 = false).
  { intros H. apply F64Facts.eqb_not_ltb in H. unfold F64.gtb, F64.ltb in *.
    tauto. }
  cbv zeta. cbn [ma_signal get_technical_signals].
  destruct (sma20 >? sma50)%f64; repeat split; intros;
    try discriminate; try reflexivity.
  specialize (E H). discriminate.
Qed.

End Signals.

(** ** Sorting by a float key, highest first *)

Section SortFacts.
Context {A : Type} (key : A -> F64.t).

Local Abbreviation before := (before key).
Local Abbreviation descending := (descending key).
Local Abbreviation with_key := (with_key key).
Local Abbreviation stable := (stable key).
Local Abbreviation no_nan := (no_nan key).

Lemma before_trans a b c : before a b -> before b c -> before a c.
Proof.
  unfold before, F64.geb. intros H1 H2.
  exact (F64Facts.leb_trans _ _ _ H2 H1).
Qed.

Lemma insert_reverse_perm x l : Permutation (insert_reverse key x l) (x :: l).
Proof.
  induction l as [|y l IH]; cbn [insert_reverse].
  - apply Permutation_refl.
  - destruct (key x <? key y)%f64.
    + eapply perm_trans; [apply perm_skip, IH | apply perm_swap].
    + apply Permutation_refl.
Qed.

Lemma sort_reverse_perm l : Permutation (sort_reverse key l) l.
Proof.
  induction l as [|x l IH]; cbn [sort_reverse fold_right].
  - constructor.
  - eapply perm_trans; [apply insert_reverse_perm | now apply perm_skip].
Qed.

Lemma insert_reverse_hd x y l :
  before y x -> HdRel before y l -> HdRel before y (insert_reverse key x l).
Proof.
  intros Hyx Hl. destruct l as [|z l]; cbn [insert_reverse].
  - now constructor.
  - destruct (key x <? key z)%f64; constructor; trivial.
    now inversion Hl.
Qed.

Lemma insert_reverse_sorted x l :
  F64.is_nan (key x) = false -> no_nan l ->
  Sorted before l -> Sorted before (insert_reverse key x l).
Proof.
  intros Hx Hn Hs. induction l as [|y l IH]; cbn [insert_reverse].
  - repeat constructor.
  - inversion Hn as [|? ? Hy Hn']; subst.
    inversion Hs as [|? ? Hs' Hhd]; subst.
    destruct (key x <? key y)%f64 eqn:E.
    + constructor; [now apply IH |].
      apply insert_reverse_hd; [| assumption].
      now apply F64Facts.ltb_leb.
    + constructor; [assumption |]. constructor.
      now apply F64Facts.not_ltb_geb.
Qed.

Lemma sort_reverse_no_nan l : no_nan l -> no_nan (sort_reverse key l).
Proof.
  intros H. unfold no_nan in *. rewrite Forall_forall in *.
  intros a Ha. apply H.
  eapply Permutation_in; [apply sort_reverse_perm | exact Ha].
Qed.

Lemma sort_reverse_descending l : no_nan l -> descending (sort_reverse key l).
Proof.
  intros Hn. apply Sorted_StronglySorted.
  - intros a b c. apply before_trans.
  - induction l as [|x l IH]; cbn [sort_reverse fold_right].
    + constructor.
    + inversion Hn as [|? ? Hx Hl]; subst.
      fold (sort_reverse key l). apply insert_reverse_sorted.
      * exact Hx.
      * now apply sort_reverse_no_nan.
      * now apply IH.
Qed.

Lemma insert_reverse_with_key v x l :
  with_key v (insert_reverse key x l) = with_key v (x :: l).
Proof.
  unfold with_key. induction l as [|y l IH]; cbn [insert_reverse].
  - reflexivity.
  - destruct (key x <? key y)%f64 eqn:E; [| reflexivity].
    cbn [filter] in *. rewrite IH.
    destruct (key x =? v)%f64 eqn:Ex, (key y =? v)%f64 eqn:Ey; try reflexivity.
    rewrite (F64Facts.eqb_eqb_not_ltb _ _ _ Ex Ey) in E. discriminate.
Qed.

Lemma sort_reverse_stable l : stable l (sort_reverse key l).
Proof.
  intros v. induction l as [|x l IH]; cbn [sort_reverse fold_right].
  - reflexivity.
  - rewrite insert_reverse_with_key. unfold with_key in *. cbn [filter].
    fold (sort_reverse key l). now rewrite IH.
Qed.

End SortFacts.

(** ** Slices *)

Lemma slice_to_nonneg {A : Type} (l : list A) (stop : Z) :
  0 <= stop -> slice_to l stop = firstn (Z.to_nat stop) l.
Proof.
  intros H. unfold slice_to. now rewrite (proj2 (Z.leb_le 0 stop) H).
Qed.

Lemma slice_to_all {A : Type} (l : list A) (stop : Z) :
  Z.of_nat (List.length l) <= stop -> slice_to l stop = l.
Proof.
  intros H. rewrite slice_to_nonneg by lia. apply firstn_all2. lia.
Qed.

Lemma slice_to_neg {A : Type} (l : list A) (stop : Z) :
  stop < 0 ->
  slice_to l stop = firstn (List.length l - Z.to_nat (- stop)) l.
Proof.
  intros H. unfold slice_to. now rewrite (proj2 (Z.leb_gt 0 stop) H).
Qed.

(** ** Stock analyser *)

(** Reads a successful [x <- c ;; k] backwards, one step at a time. *)
Ltac bind_inv H :=
  repeat match type of H with
         | bind ?c _ = Some _ =>
             let E := fresh "E" in
             destruct c eqn:E; cbn [bind] in H; [| discriminate H]
         end.

Lemma analyze_stock_some yf sym r :
  analyze_stock yf sym = Some r <->
  exists hist inf v,
    history yf sym "3mo" = Some hist /\
    (50 <= List.length hist)%nat /\
    Locals.of_hist hist = Some v /\
    info yf sym = Some inf /\
    r = record_of sym inf v.
Proof.
  unfold analyze_stock, Locals.of_hist. split.
  - intros H.
    destruct (history yf sym "3mo") as [hist|]; cbn [bind] in H;
      [| discriminate H].
    destruct (Series.empty hist || (List.length hist <? 50)%nat) eqn:G;
      [discriminate H |].
    apply orb_false_elim in G as [_ G]. apply Nat.ltb_ge in G.
    bind_inv H. injection H as <-.
    eexists hist, _, _.
    repeat match goal with
           | E : ?c = Some _ |- context [bind ?c _] => rewrite E; cbn [bind]
           end.
    repeat split; try reflexivity. exact G.
  - intros (hist & inf & v & Hh & Hlen & Hv & Hi & ->).
    rewrite Hh. cbn [bind].
    assert (G : Series.empty hist || (List.length hist <? 50)%nat = false).
    { apply orb_false_intro; [| now apply Nat.ltb_ge].
      destruct hist; [cbn in Hlen; lia | reflexivity]. }
    rewrite G. bind_inv Hv. injection Hv as <-.
    cbn [bind]. rewrite Hi. reflexivity.
Qed.

Lemma analyze_stock_insufficient yf sym :
  insufficient_data yf sym -> analyze_stock yf sym = None.
Proof.
  intros (hist & Hh & Hlen). unfold analyze_stock. rewrite Hh. cbn [bind].
  apply Nat.ltb_lt in Hlen. rewrite Hlen. now rewrite orb_true_r.
Qed.

Lemma analyze_stock_raise yf sym :
  history yf sym "3mo" = None -> analyze_stock yf sym = None.
Proof.
  intros H. unfold analyze_stock. now rewrite H.
Qed.

(** ** Market scanner *)

Lemma analyzed_stocks_flat_map yf watchlist :
  analyzed_stocks yf watchlist = flat_map (records_of yf) watchlist.
Proof.
  unfold analyzed_stocks.
  enough (G : forall acc,
             fold_left
               (fun acc sym =>
                  match analyze_stock yf sym with
                  | Some d => (acc ++ [with_score d])%list
                  | None => acc
                  end) watchlist acc
             = (acc ++ flat_map (records_of yf) watchlist)%list)
    by apply (G []).
  induction watchlist as [|sym wl IH]; intros acc; cbn [fold_left flat_map].
  - now rewrite app_nil_r.
  - rewrite IH. unfold records_of at 2.
    destruct (analyze_stock yf sym); [| reflexivity].
    now rewrite <- app_assoc.
Qed.

Lemma analyzed_stocks_app yf wl1 wl2 :
  analyzed_stocks yf (wl1 ++ wl2) =
  (analyzed_stocks yf wl1 ++ analyzed_stocks yf wl2)%list.
Proof.
  rewrite !analyzed_stocks_flat_map. apply flat_map_app.
Qed.

Lemma in_analyzed_stocks yf watchlist m :
  In m (analyzed_stocks yf watchlist) <->
  exists sym d,
    In sym watchlist /\ analyze_stock yf sym = Some d /\ m = with_score d.
Proof.
  rewrite analyzed_stocks_flat_map, in_flat_map. unfold records_of. split.
  - intros (sym & Hin & Hm). destruct (analyze_stock yf sym) as [d|] eqn:E.
    + destruct Hm as [<- | []]. now exists sym, d.
    + destruct Hm.
  - intros (sym & d & Hin & E & ->). exists sym. rewrite E. split; [assumption |].
    now left.
Qed.

Lemma slice_to_incl {A : Type} (l : list A) (stop : Z) (a : A) :
  In a (slice_to l stop) -> In a l.
Proof.
  assert (G : forall n, In a (firstn n l) -> In a l).
  { intros n H. rewrite <- (firstn_skipn n l). apply in_or_app. now left. }
  unfold slice_to. destruct (0 <=? stop); apply G.
Qed.

Lemma in_get_top_movers yf watchlist limit m :
  In m (get_top_movers_of watchlist yf limit) ->
  In m (analyzed_stocks yf watchlist).
Proof.
  unfold get_top_movers_of. intros H. apply slice_to_incl in H.
  eapply Permutation_in; [apply sort_reverse_perm | exact H].
Qed.

(** A ticker whose fetch raises is skipped in the same way. *)
Lemma fetch_failure_skipped yf (earlier later : list string) sym :
  history yf sym "3mo" = None ->
  analyzed_stocks yf (earlier ++ sym :: later) =
    analyzed_stocks yf (earlier ++ later).
Proof.
  intros H. rewrite !analyzed_stocks_app. f_equal.
  rewrite !analyzed_stocks_flat_map. cbn [flat_map].
  unfold records_of at 1. now rewrite (analyze_stock_raise _ _ H).
Qed.

(** A negative limit is a slice bound counted from the end. *)
Lemma get_top_movers_negative_limit yf watchlist limit :
  limit < 0 ->
  let sorted := sort_reverse movement_score (analyzed_stocks yf watchlist) in
  get_top_movers_of watchlist yf limit
  = firstn (List.length sorted - Z.to_nat (- limit)) sorted.
Proof.
  intros H. apply slice_to_neg, H.
Qed.

(** C3: a ticker whose history is empty or shorter than 50 bars gets no
    record from [analyze_stock] (which returns [None] and raises nothing);
    the scan and the ranking are those of the watchlist without that ticker,
    every other ticker that is analysed keeps its record in the scan, and
    no returned record bears the short ticker's symbol. *)
Theorem insufficient_data_skipped yf (earlier later : list string) sym limit :
  insufficient_data yf sym ->
  analyze_stock yf sym = None /\
  analyzed_stocks yf (earlier ++ sym :: later) =
    analyzed_stocks yf (earlier ++ later) /\
  get_top_movers_of (earlier ++ sym :: later) yf limit =
    get_top_movers_of (earlier ++ later) yf limit /\
  (forall other d,
      In other (earlier ++ later) -> analyze_stock yf other = Some d ->
      In (with_score d) (analyzed_stocks yf (earlier ++ sym :: later))) /\
  Forall (fun m => symbol (data m) <> sym)
    (get_top_movers_of (earlier ++ sym :: later) yf limit).
Proof.
  intros Hshort. pose proof (analyze_stock_insufficient _ _ Hshort) as Hnone.
  assert (Hscan : analyzed_stocks yf (earlier ++ sym :: later) =
                  analyzed_stocks yf (earlier ++ later)).
  { rewrite !analyzed_stocks_app. f_equal.
    rewrite !analyzed_stocks_flat_map. cbn [flat_map].
    unfold records_of at 1. now rewrite Hnone. }
  split; [| split; [| split; [| split]]].
  - exact Hnone.
  - exact Hscan.
  - unfold get_top_movers_of. now rewrite Hscan.
  - intros other d Hin Hd. rewrite Hscan. apply in_analyzed_stocks.
    now exists other, d.
  - apply Forall_forall. intros m Hm. apply in_get_top_movers in Hm.
    apply in_analyzed_stocks in Hm as (s & d & _ & Hd & ->).
    cbn [data with_score].
    pose proof Hd as Hd'.
    apply analyze_stock_some in Hd as (hist & inf & v & _ & _ & _ & _ & ->).
    cbn [symbol record_of]. intros ->. congruence.
Qed.

Lemma insufficient_data_skipped_witness :
  analyze_stock Sample.yf "SHORT" = None /\
  get_top_movers_of ["UP"; "SHORT"; "B"] Sample.yf 5 =
    get_top_movers_of ["UP"; "B"] Sample.yf 5 /\
  map (fun m => symbol (data m))
    (get_top_movers_of ["UP"; "SHORT"; "B"] Sample.yf 5) = ["UP"; "B"].
Proof.
  assert (H : insufficient_data Sample.yf "SHORT").
  { exists (repeat (Sample.bar 100 1000) 10). split; [reflexivity |].
    cbn. lia. }
  destruct (insufficient_data_skipped Sample.yf ["UP"] ["B"] "SHORT" 5 H)
    as (H1 & _ & H3 & _).
  split; [exact H1 |]. split; [exact H3 |]. vm_compute. reflexivity.
Defined.

Example empty_history_skipped : analyze_stock Sample.yf "EMPTY" = None.
Proof. reflexivity. Qed.

(** ** What the record and the score are computed from *)

Lemma of_hist_volume_ratio hist v :
  Locals.of_hist hist = Some v ->
  Series.iloc (Raw.volumes hist) (-1) = Some (Locals.current_volume v) /\
  Series.iloc (Series.rolling_mean 20 (Raw.volumes hist)) (-1)
    = Some (Locals.avg_volume v) /\
  Locals.volume_ratio v
    = Raw.volume_ratio (Locals.current_volume v) (Locals.avg_volume v).
Proof.
  unfold Locals.of_hist. intros H. bind_inv H. injection H as <-.
  cbn. auto.
Qed.

Lemma of_hist_daily_change_pct hist v :
  Locals.of_hist hist = Some v ->
  Series.iloc (Raw.closes hist) (-1) = Some (Locals.current_price v) /\
  Series.iloc (Raw.closes hist) (-2) = Some (Locals.previous_close v) /\
  Locals.daily_change_pct v
    = Raw.daily_change_pct (Locals.current_price v) (Locals.previous_close v).
Proof.
  unfold Locals.of_hist. intros H. bind_inv H. injection H as <-.
  cbn. auto.
Qed.

Lemma of_hist_position_52w hist v :
  Locals.of_hist hist = Some v ->
  Locals.position_52w v
    = Raw.position_52w (Locals.current_price v)
        (Series.max (map High hist)) (Series.min (map Low hist)).
Proof.
  unfold Locals.of_hist. intros H. bind_inv H. injection H as <-.
  reflexivity.
Qed.

Lemma record_of_rounded sym inf v : rounded v (record_of sym inf v).
Proof.
  unfold rounded, record_of. cbn. repeat split.
Qed.

Lemma in_get_top_movers_inv yf watchlist limit m :
  In m (get_top_movers_of watchlist yf limit) ->
  exists sym hist inf v,
    In sym watchlist /\
    history yf sym "3mo" = Some hist /\
    (50 <= List.length hist)%nat /\
    Locals.of_hist hist = Some v /\
    m = with_score (record_of sym inf v).
Proof.
  intros H. apply in_get_top_movers, in_analyzed_stocks in H.
  destruct H as (sym & d & Hin & Hd & ->).
  apply analyze_stock_some in Hd as (hist & inf & v & Hh & Hlen & Hv & _ & ->).
  now exists sym, hist, inf, v.
Qed.

(** What [F64.round] computes is the rounding to decimals of the
    specification: the integer it divides is the nearest one. *)
Lemma rint_nearest s m e :
  e < 0 ->
  let d := 2 ^ (- e) in
  let q := Z.pos m / d in
  let r := Z.pos m mod d in
  let n :=
    match 2 * r ?= d with
    | Lt => q
    | Gt => q + 1
    | Eq => if Z.even q then q else q + 1
    end in
  nearest_integer s m e (if s then - n else n).
Proof.
  intros He. cbv zeta. unfold nearest_integer.
  rewrite (proj2 (Z.leb_gt 0 e)) by lia. cbv zeta.
  set (d := 2 ^ (- e)).
  assert (Hd : 0 < d) by (apply Z.pow_pos_nonneg; lia).
  pose proof (Z.div_mod (Z.pos m) d ltac:(lia)) as Hm.
  pose proof (Z.mod_pos_bound (Z.pos m) d Hd) as Hr.
  set (q := Z.pos m / d) in *. set (r := Z.pos m mod d) in *.
  change (Z.neg m) with (- Z.pos m).
  assert (Hodd : Z.even q = false -> Z.even (q + 1) = true).
  { intros H. change (q + 1) with (Z.succ q).
    rewrite Z.even_succ, <- Z.negb_even, H. reflexivity. }
  destruct (Z.compare_spec (2 * r) d) as [Heq | Hlt | Hgt].
  - right. destruct (Z.even q) eqn:Hq, s; rewrite ?Z.even_opp;
      (split; [lia | auto]).
  - left. destruct s; lia.
  - left. destruct s; lia.
Qed.

Lemma round_rounded_to n x : rounded_to n x (F64.round x n).
Proof.
  unfold rounded_to, F64.round. cbv zeta.
  destruct (x * F64.of_Z (10 ^ n))%f64 as [s|s| |s m e]; try reflexivity.
  unfold F64.rint. destruct (0 <=? e) eqn:E; [reflexivity |].
  apply Z.leb_gt in E. cbv zeta.
  eexists. split; [apply (rint_nearest s m e E) |].
  f_equal.
  match goal with
  | |- binary_normalize _ _ ?k _ _ = _ => destruct k; reflexivity
  end.
Qed.

Lemma record_of_decimals sym inf v : decimals v (record_of sym inf v).
Proof.
  unfold decimals, record_of. cbn. repeat split; apply round_rounded_to.
Qed.

(** C10: every record [get_top_movers] returns holds its numeric fields
    rounded (current price, daily change, SMA20, SMA50, EMA12, EMA26,
    volume ratio, 52-week high and low and ATR to two decimals, RSI and
    52-week position to one): each is the integer nearest to the local
    variable times 100 (or 10), divided by 100 (or 10).  Its movement score
    is the product of the absolute value of the stored, rounded daily change
    and the stored, rounded volume ratio. *)
Theorem records_are_rounded yf watchlist limit m :
  In m (get_top_movers_of watchlist yf limit) ->
  exists sym hist v,
    In sym watchlist /\
    symbol (data m) = sym /\
    history yf sym "3mo" = Some hist /\
    Locals.of_hist hist = Some v /\
    decimals v (data m) /\
    rounded v (data m) /\
    movement_score m
      = (F64.abs (daily_change_pct (data m)) * volume_ratio (data m))%f64 /\
    movement_score m
      = (F64.abs (F64.round (Locals.daily_change_pct v) 2)
         * F64.round (Locals.volume_ratio v) 2)%f64.
Proof.
  intros Hm.
  apply in_get_top_movers_inv in Hm
    as (sym & hist & inf & v & Hin & Hh & _ & Hv & ->).
  exists sym, hist, v. cbn [data with_score movement_score].
  split; [assumption |]. split; [reflexivity |].
  split; [assumption |]. split; [assumption |].
  split; [apply record_of_decimals |].
  split; [apply record_of_rounded |].
  split; reflexivity.
Qed.

(** The sample ticker THIRD, whose close goes from 3 to 4, is returned: its
    unrounded daily change is 33.33333333333333, the nearest integer to a
    hundred times that is 3333, and the record holds 3333/100. *)
Lemma records_are_rounded_witness :
  exists m v,
    In m (get_top_movers_of ["THIRD"] Sample.yf 5) /\
    Locals.of_hist (Sample.series 3 1000 (Sample.bar 4 1000)) = Some v /\
    decimals v (data m) /\
    Locals.daily_change_pct v
      = (F64.of_Z 1 / F64.of_Z 3 * F64.of_Z 100)%f64 /\
    daily_change_pct (data m) = F64.dec 3333 2 /\
    movement_score m = F64.dec 3333 2.
Proof.
  destruct (get_top_movers_of ["THIRD"] Sample.yf 5) as [|m l] eqn:E;
    [vm_compute in E; discriminate E |].
  assert (Hin : In m (get_top_movers_of ["THIRD"] Sample.yf 5))
    by (rewrite E; left; reflexivity).
  destruct (records_are_rounded Sample.yf ["THIRD"] 5 m Hin)
    as (sym & hist & v & Hs & Hsym & Hh & Hv & Hd & _).
  destruct Hs as [<- | []].
  assert (Hh' : history Sample.yf "THIRD" "3mo"
                = Some (Sample.series 3 1000 (Sample.bar 4 1000)))
    by reflexivity.
  rewrite Hh' in Hh. injection Hh as <-.
  exists m, v.
  split; [left; reflexivity |]. split; [exact Hv |]. split; [exact Hd |].
  vm_compute in Hv. injection Hv as <-.
  vm_compute in E. injection E as <- _.
  repeat split; vm_compute; reflexivity.
Defined.

(** The statement above is about actual records: the sample ticker THIRD,
    whose close goes from 3 to 4, is returned with a daily change of 33.33
    and a score of 33.33. *)
Example third_is_ranked :
  map (fun m => (symbol (data m), daily_change_pct (data m), movement_score m))
    (get_top_movers_of ["THIRD"] Sample.yf 5)
  = [("THIRD", F64.dec 3333 2, F64.dec 3333 2)].
Proof. vm_compute. reflexivity. Qed.

(** C2, as the code has it: the movement score of a returned record is the
    absolute value of the daily percent change of the close, rounded to two
    decimals, times the volume ratio (current volume over the mean of the
    last 20 bars, or 1 when that mean is not positive), rounded to two
    decimals. *)
Theorem movement_score_rounded yf watchlist limit :
  Forall
    (fun m =>
       score_of_rounded_values yf m /\
       exists hist current_price previous_close current_volume avg_volume,
         history yf (symbol (data m)) "3mo" = Some hist /\
         Series.iloc (Raw.closes hist) (-1) = Some current_price /\
         Series.iloc (Raw.closes hist) (-2) = Some previous_close /\
         Series.iloc (Raw.volumes hist) (-1) = Some current_volume /\
         Series.iloc (Series.rolling_mean 20 (Raw.volumes hist)) (-1)
           = Some avg_volume /\
         movement_score m
           = (F64.abs
                (F64.round
                   ((current_price - previous_close) / previous_close
                    * F64.of_Z 100) 2)
              * F64.round
                  (if avg_volume >? F64.of_Z 0
                   then current_volume / avg_volume
                   else F64.of_Z 1) 2)%f64)
    (get_top_movers_of watchlist yf limit).
Proof.
  apply Forall_forall. intros m Hm.
  apply in_get_top_movers_inv in Hm
    as (sym & hist & inf & v & Hin & Hh & _ & Hv & ->).
  cbn [data with_score movement_score symbol record_of daily_change_pct
         volume_ratio].
  split.
  - exists hist, v. cbn [data with_score movement_score symbol record_of
                          daily_change_pct volume_ratio]. auto.
  - destruct (of_hist_volume_ratio _ _ Hv) as (Hcur & Havg & Hvr).
    destruct (of_hist_daily_change_pct _ _ Hv) as (Hcp & Hpc & Hdc).
    exists hist, (Locals.current_price v), (Locals.previous_close v),
      (Locals.current_volume v), (Locals.avg_volume v).
    rewrite Hvr, Hdc. unfold Raw.volume_ratio, Raw.daily_change_pct.
    repeat split; assumption.
Qed.

(** C2, as stated, fails: for the sample ticker THIRD (close from 3 to 4 on
    unchanged volume) the unrounded daily change is 33.33333333333333 and the
    ratio 1, but the score is 33.33. *)
Lemma movement_score_not_of_raw_values :
  ~ Forall (score_of_raw_values Sample.yf)
      (get_top_movers_of ["THIRD"] Sample.yf 5).
Proof.
  intros H.
  destruct (get_top_movers_of ["THIRD"] Sample.yf 5) as [|m l] eqn:E;
    [vm_compute in E; discriminate E |].
  inversion H as [|? ? (hist & v & Hh & Hv & Hs) _]; subst.
  vm_compute in E. injection E as <- _.
  cbn [data symbol] in Hh. vm_compute in Hh. injection Hh as <-.
  vm_compute in Hv. injection Hv as <-.
  vm_compute in Hs. discriminate Hs.
Qed.

(** ** Degenerate denominators *)

Lemma iloc_In {A : Type} (s : list A) (i : Z) (a : A) :
  Series.iloc s i = Some a -> In a s.
Proof.
  unfold Series.iloc.
  destruct ((0 <=? _) && (_ <? _)); [| discriminate].
  apply nth_error_In.
Qed.

Lemma iloc_last {A : Type} (s : list A) (a : A) :
  Series.iloc (s ++ [a]) (-1) = Some a.
Proof.
  unfold Series.iloc. rewrite length_app. cbn [List.length].
  change (-1 <? 0) with true. cbv iota.
  replace (-1 + Z.of_nat (List.length s + 1)) with (Z.of_nat (List.length s))
    by lia.
  rewrite (proj2 (Z.leb_le _ _)) by lia.
  rewrite (proj2 (Z.ltb_lt _ _)) by lia.
  cbn [andb]. rewrite Nat2Z.id.
  rewrite nth_error_app2 by lia. now rewrite Nat.sub_diag.
Qed.

(** An index within bounds reads a value, one out of bounds raises. *)
Lemma iloc_back_some {A : Type} (s : list A) (k : nat) :
  (0 < k <= List.length s)%nat ->
  exists a, Series.iloc s (- Z.of_nat k) = Some a.
Proof.
  intros H. unfold Series.iloc.
  rewrite (proj2 (Z.ltb_lt _ _)) by lia.
  rewrite (proj2 (Z.leb_le _ _)) by lia.
  rewrite (proj2 (Z.ltb_lt _ _)) by lia.
  cbn [andb].
  destruct (nth_error s (Z.to_nat (- Z.of_nat k + Z.of_nat (List.length s))))
    eqn:E; [eauto |].
  apply nth_error_None in E. lia.
Qed.

Lemma iloc_back_none {A : Type} (s : list A) (k : nat) :
  (List.length s < k)%nat -> Series.iloc s (- Z.of_nat k) = None.
Proof.
  intros H. unfold Series.iloc.
  rewrite (proj2 (Z.ltb_lt _ _)) by lia.
  rewrite (proj2 (Z.leb_gt _ _)) by lia.
  reflexivity.
Qed.

Lemma volume_ratio_guard current_volume avg_volume :
  (avg_volume =? F64.of_Z 0)%f64 = true ->
  Raw.volume_ratio current_volume avg_volume = F64.of_Z 1.
Proof.
  intros H. apply F64Facts.eqb_not_ltb in H as [_ H].
  unfold Raw.volume_ratio, F64.gtb. unfold F64.ltb in H. now rewrite H.
Qed.

(** C4: when the mean volume of the last 20 bars is zero, the volume ratio
    [analyze_stock] computes is the neutral 1.0 of the guard, no quotient;
    the record stores 1.0 as well. *)
Theorem volume_ratio_zero_mean yf sym hist r :
  history yf sym "3mo" = Some hist ->
  zero_mean_volume hist ->
  analyze_stock yf sym = Some r ->
  (exists v, Locals.of_hist hist = Some v /\
             Locals.volume_ratio v = F64.of_Z 1) /\
  volume_ratio r = F64.of_Z 1.
Proof.
  intros Hh (avg & Havg & Hzero) Hr.
  apply analyze_stock_some in Hr as (hist' & inf & v & Hh' & _ & Hv & _ & ->).
  assert (hist' = hist) as -> by congruence.
  destruct (of_hist_volume_ratio _ _ Hv) as (_ & Havg' & Hvr).
  assert (Locals.avg_volume v = avg) as E by congruence.
  rewrite E in Hvr. rewrite (volume_ratio_guard _ _ Hzero) in Hvr.
  split.
  - now exists v.
  - cbn [volume_ratio record_of]. rewrite Hvr. vm_compute. reflexivity.
Qed.

Lemma volume_ratio_zero_mean_witness :
  exists r,
    analyze_stock Sample.yf "ZEROVOL" = Some r /\
    volume_ratio r = F64.of_Z 1.
Proof.
  destruct (analyze_stock Sample.yf "ZEROVOL") as [r|] eqn:E;
    [| vm_compute in E; discriminate E].
  exists r. split; [reflexivity |].
  refine (proj2 (volume_ratio_zero_mean Sample.yf "ZEROVOL"
                   (Sample.series 100 0 (Sample.bar 101 0)) r _ _ E)).
  - reflexivity.
  - exists (F64.of_Z 0). split; vm_compute; reflexivity.
Defined.

Lemma sub_diag v : F64.is_finite v = true -> (v - v)%f64 = S754_zero false.
Proof.
  destruct v as [[|] | | | s m e]; try discriminate; intros _; try reflexivity.
  unfold F64.sub, SFsub. rewrite Z.sub_diag. reflexivity.
Qed.

Lemma ltb_irrefl v : (v <? v)%f64 = false.
Proof.
  destruct (v <? v)%f64 eqn:E; [| reflexivity].
  pose proof (F64Facts.ltb_asym _ _ E). congruence.
Qed.

Lemma max2_diag v : Series.max2 v v = v.
Proof.
  unfold Series.max2. destruct (F64.is_nan v); [reflexivity |].
  now rewrite ltb_irrefl.
Qed.

Lemma min2_diag v : Series.min2 v v = v.
Proof.
  unfold Series.min2. destruct (F64.is_nan v); [reflexivity |].
  now rewrite ltb_irrefl.
Qed.

Lemma fold_constant (f : F64.t -> F64.t -> F64.t) v s :
  f v v = v -> Forall (eq v) s -> fold_left f s v = v.
Proof.
  intros Hf H. induction H as [|x s <- _ IH]; cbn [fold_left].
  - reflexivity.
  - now rewrite Hf.
Qed.

Lemma max_constant v s :
  s <> [] -> Forall (eq v) s -> Series.max s = v.
Proof.
  intros Hne H. destruct s as [|x s]; [congruence |].
  pose proof (Forall_inv H) as Hx. apply Forall_inv_tail in H.
  unfold Series.max. cbn [fold_left]. rewrite <- Hx.
  change (Series.max2 F64.nan v) with v.
  apply fold_constant; [apply max2_diag | assumption].
Qed.

Lemma min_constant v s :
  s <> [] -> Forall (eq v) s -> Series.min s = v.
Proof.
  intros Hne H. destruct s as [|x s]; [congruence |].
  pose proof (Forall_inv H) as Hx. apply Forall_inv_tail in H.
  unfold Series.min. cbn [fold_left]. rewrite <- Hx.
  change (Series.min2 F64.nan v) with v.
  apply fold_constant; [apply min2_diag | assumption].
Qed.

Lemma flat_column hist v (col : Bar -> F64.t) :
  Forall (fun b => col b = v) hist -> Forall (eq v) (map col hist).
Proof.
  intros H. apply Forall_map. eapply Forall_impl; [| exact H].
  intros b Hb. now symmetry.
Qed.

Lemma position_52w_degenerate v :
  F64.is_finite v = true -> Raw.position_52w v v v = F64.nan.
Proof.
  intros H. unfold Raw.position_52w. rewrite (sub_diag v H). reflexivity.
Qed.

(** C6, at every flat table: the high-low range is zero, the script divides
    zero by zero and the record holds NaN as its 52-week position, no
    fallback number. *)
Theorem position_52w_flat_is_nan yf sym hist v r :
  history yf sym "3mo" = Some hist ->
  flat hist v ->
  analyze_stock yf sym = Some r ->
  position_52w r = F64.nan.
Proof.
  intros Hh [Hfin Hflat] Hr.
  apply analyze_stock_some in Hr as (hist' & inf & l & Hh' & Hlen & Hl & _ & ->).
  assert (hist' = hist) as -> by congruence.
  assert (Hne : forall col : Bar -> F64.t, map col hist <> []).
  { intros col E. apply (f_equal (@List.length _)) in E.
    rewrite length_map in E. cbn in E. lia. }
  cbn [position_52w record_of]. rewrite (of_hist_position_52w _ _ Hl).
  rewrite (max_constant v), (min_constant v); try apply Hne;
    try (apply flat_column; eapply Forall_impl; [| exact Hflat];
         cbn; intros b Hb; tauto).
  destruct (of_hist_daily_change_pct _ _ Hl) as (Hcp & _ & _).
  apply iloc_In in Hcp.
  assert (Hc : Forall (eq v) (Raw.closes hist)).
  { apply flat_column. eapply Forall_impl; [| exact Hflat].
    cbn; intros b Hb; tauto. }
  rewrite Forall_forall in Hc. rewrite <- (Hc _ Hcp).
  rewrite (position_52w_degenerate v Hfin). reflexivity.
Qed.

Lemma position_52w_flat_is_nan_witness :
  exists r,
    analyze_stock Sample.yf "FLAT" = Some r /\ position_52w r = F64.nan.
Proof.
  destruct (analyze_stock Sample.yf "FLAT") as [r|] eqn:E;
    [| vm_compute in E; discriminate E].
  exists r. split; [reflexivity |].
  refine (position_52w_flat_is_nan Sample.yf "FLAT"
            (repeat (Sample.bar 100 1000) 60) (F64.of_Z 100) r _ _ E).
  - reflexivity.
  - split; [reflexivity |]. apply Forall_forall. intros b Hb.
    apply repeat_spec in Hb. subst b. repeat split.
Defined.

Lemma iloc_last_map {A B : Type} (f : A -> B) (s : list A) :
  Series.iloc (map f s) (-1) = option_map f (Series.iloc s (-1)).
Proof.
  destruct s as [|x s'] using rev_ind.
  - reflexivity.
  - rewrite map_app. cbn [map]. now rewrite !iloc_last.
Qed.

Lemma map2_length f a b :
  List.length (Series.map2 f a b) = Nat.min (List.length a) (List.length b).
Proof.
  revert b. induction a as [|x a IH]; intros [|y b]; cbn; auto.
Qed.

Lemma map2_app f (a a' b b' : Series.t) :
  List.length a = List.length b ->
  Series.map2 f (a ++ a')%list (b ++ b')%list
  = (Series.map2 f a b ++ Series.map2 f a' b')%list.
Proof.
  revert b. induction a as [|x a IH]; intros [|y b] H; try discriminate.
  - reflexivity.
  - cbn. f_equal. apply IH. now injection H.
Qed.

Lemma iloc_last_map2 f a b :
  List.length a = List.length b ->
  Series.iloc (Series.map2 f a b) (-1)
  = match Series.iloc a (-1), Series.iloc b (-1) with
    | Some x, Some y => Some (f x y)
    | _, _ => None
    end.
Proof.
  intros H.
  destruct a as [|x a' _] using rev_ind; destruct b as [|y b' _] using rev_ind.
  - reflexivity.
  - rewrite length_app in H. cbn in H. lia.
  - rewrite length_app in H. cbn in H. lia.
  - rewrite !length_app in H. cbn in H.
    rewrite map2_app by lia. cbn [Series.map2]. now rewrite !iloc_last.
Qed.

Lemma rolling_mean_length w s :
  List.length (Series.rolling_mean w s) = List.length s.
Proof.
  unfold Series.rolling_mean. now rewrite length_map, length_seq.
Qed.

Lemma prep_length s : List.length (Series.prep s) = List.length s.
Proof. apply length_map. Qed.

Lemma iloc_last_rolling_mean w s :
  s <> [] ->
  Series.iloc (Series.rolling_mean w s) (-1)
  = Some (Series.window_mean w (Series.prep s)).
Proof.
  intros Hne. destruct s as [|x s' _] using rev_ind; [congruence |].
  unfold Series.rolling_mean. rewrite length_app. cbn [List.length].
  rewrite Nat.add_1_r, seq_S, map_app. cbn [map Nat.add].
  rewrite iloc_last. f_equal. f_equal.
  apply firstn_all2. rewrite prep_length, length_app. cbn. lia.
Qed.

(** Values none of which is infinite reach the window kernels unchanged. *)
Lemma prep_finite s :
  Forall (fun x => F64.is_inf x = false) s -> Series.prep s = s.
Proof.
  unfold Series.prep. induction 1 as [|x s Hx _ IH]; cbn [map].
  - reflexivity.
  - now rewrite Hx, IH.
Qed.

Lemma shift_length s : List.length (Series.shift s) = List.length s.
Proof.
  destruct s as [|x s]; [reflexivity |].
  unfold Series.shift. cbn [List.length].
  destruct s as [|y s' _] using rev_ind; [reflexivity |].
  change (x :: s' ++ [y])%list with ((x :: s') ++ [y])%list.
  rewrite removelast_last, length_app. cbn. lia.
Qed.

Lemma diff_length s : List.length (Series.diff s) = List.length s.
Proof.
  unfold Series.diff. rewrite map2_length, shift_length. lia.
Qed.

(** [calculate_rsi] returns the value of its formula at the two trailing
    averages of the latest bar. *)
Lemma calculate_rsi_latest prices period :
  calculate_rsi prices period
  = match avg_gain prices period, avg_loss prices period with
    | Some gain, Some loss => Some (rsi_of gain loss)
    | _, _ => None
    end.
Proof.
  unfold calculate_rsi, avg_gain, avg_loss.
  rewrite iloc_last_map, iloc_last_map2.
  - destruct (Series.iloc _ (-1)) as [g|]; [| reflexivity].
    destruct (Series.iloc _ (-1)) as [l|]; reflexivity.
  - rewrite !rolling_mean_length. unfold Series.where_.
    now rewrite !length_map.
Qed.

(** ** RSI on a flat series *)

Lemma Forall_skipn {A : Type} (P : A -> Prop) (n : nat) (s : list A) :
  Forall P s -> Forall P (skipn n s).
Proof.
  intros H. rewrite <- (firstn_skipn n s) in H.
  now apply Forall_app in H.
Qed.

Lemma Forall_removelast {A : Type} (P : A -> Prop) (s : list A) :
  Forall P s -> Forall P (removelast s).
Proof.
  intros H. destruct s as [|x s' _] using rev_ind; [constructor |].
  rewrite removelast_last. now apply Forall_app in H.
Qed.

Lemma Forall_map2 (P Q R : F64.t -> Prop) f a b :
  (forall x y, P x -> Q y -> R (f x y)) ->
  Forall P a -> Forall Q b -> Forall R (Series.map2 f a b).
Proof.
  intros Hf Ha. revert b.
  induction Ha as [|x a Hx Ha IH]; intros b Hb; [constructor |].
  destruct Hb as [|y b Hy Hb]; [constructor |].
  cbn. constructor; auto.
Qed.

(** On a flat series every difference is missing (the first) or zero. *)
Lemma diff_flat v s :
  F64.is_finite v = true -> Forall (eq v) s ->
  Forall (fun d => d = F64.nan \/ d = S754_zero false) (Series.diff s).
Proof.
  intros Hv Hs. unfold Series.diff.
  apply Forall_map2 with (P := eq v) (Q := fun y => y = F64.nan \/ y = v).
  - intros x y <- [-> | ->].
    + left. now destruct v.
    + right. now apply sub_diag.
  - assumption.
  - destruct s as [|x s]; [constructor |]. unfold Series.shift.
    constructor; [now left |].
    apply Forall_removelast. eapply Forall_impl; [| exact Hs].
    intros a <-. now right.
Qed.

Lemma sum_absorbed s :
  Forall (fun x => (F64.of_Z 0 + x)%f64 = F64.of_Z 0) s ->
  Series.sum s = F64.of_Z 0.
Proof.
  unfold Series.sum. induction 1 as [|x s Hx _ IH]; cbn [fold_left].
  - reflexivity.
  - now rewrite Hx.
Qed.

Lemma window_mean_14_zero s :
  (14 <= List.length s)%nat ->
  Forall (fun x => (F64.of_Z 0 + x)%f64 = F64.of_Z 0) s ->
  Series.window_mean 14 s = S754_zero false.
Proof.
  intros Hlen H. unfold Series.window_mean.
  rewrite (proj2 (Nat.ltb_ge _ _) Hlen).
  rewrite sum_absorbed by now apply Forall_skipn.
  reflexivity.
Qed.

Lemma window_mean_14_zero_prep s :
  (14 <= List.length s)%nat ->
  Forall (fun x => (F64.of_Z 0 + x)%f64 = F64.of_Z 0) s ->
  Series.window_mean 14 (Series.prep s) = S754_zero false.
Proof.
  intros Hlen H. rewrite prep_finite; [now apply window_mean_14_zero |].
  eapply Forall_impl; [| exact H].
  intros x Hx. destruct x as [s0|[|]| |s0 m e]; try reflexivity;
    discriminate Hx.
Qed.

Section FlatRsi.
Variables (v : F64.t) (prices : Series.t).
Hypothesis finite_v : F64.is_finite v = true.
Hypothesis flat_prices : Forall (eq v) prices.
Hypothesis enough : (14 <= List.length prices)%nat.

Lemma prices_not_nil (f : Series.t -> Series.t) :
  List.length (f (Series.diff prices)) = List.length prices ->
  f (Series.diff prices) <> [].
Proof.
  intros H E. rewrite E in H. cbn in H. lia.
Qed.

Lemma avg_gain_flat : avg_gain prices 14 = Some (S754_zero false).
Proof.
  unfold avg_gain. unfold Series.where_.
  rewrite iloc_last_rolling_mean
    by (apply (prices_not_nil (map _)); now rewrite length_map, diff_length).
  f_equal. apply window_mean_14_zero_prep.
  - now rewrite length_map, diff_length.
  - apply Forall_map. eapply Forall_impl; [| apply (diff_flat v); assumption].
    cbn. intros d [-> | ->]; reflexivity.
Qed.

Lemma avg_loss_flat : avg_loss prices 14 = Some (S754_zero false).
Proof.
  unfold avg_loss. unfold Series.where_. rewrite map_map.
  rewrite iloc_last_rolling_mean
    by (apply (prices_not_nil (map _)); now rewrite length_map, diff_length).
  f_equal. apply window_mean_14_zero_prep.
  - now rewrite length_map, diff_length.
  - apply Forall_map. eapply Forall_impl; [| apply (diff_flat v); assumption].
    cbn. intros d [-> | ->]; reflexivity.
Qed.

(** C5, at every flat close series: both trailing averages are zero, the
    script divides zero by zero and returns NaN, not 100. *)
Theorem calculate_rsi_flat_is_nan :
  avg_loss prices 14 = Some (S754_zero false) /\
  calculate_rsi prices 14 = Some F64.nan.
Proof.
  split; [apply avg_loss_flat |].
  rewrite calculate_rsi_latest, avg_gain_flat, avg_loss_flat. reflexivity.
Qed.

End FlatRsi.

Lemma calculate_rsi_flat_is_nan_witness :
  calculate_rsi (Raw.closes (repeat (Sample.bar 100 1000) 60)) 14
  = Some F64.nan.
Proof.
  refine (proj2 (calculate_rsi_flat_is_nan (F64.of_Z 100) _ _ _ _)).
  - reflexivity.
  - apply Forall_forall. intros x Hx. unfold Raw.closes in Hx.
    rewrite map_repeat in Hx. apply repeat_spec in Hx. now subst x.
  - cbn. lia.
Defined.

(** With a zero trailing loss and a positive trailing gain the unguarded
    quotient is an infinity and the formula gives 100. *)
Lemma rsi_of_zero_loss gain s :
  (gain >? F64.of_Z 0)%f64 = true ->
  rsi_of gain (S754_zero s) = F64.of_Z 100.
Proof.
  destruct gain as [sg | [|] | | [|] m e], s; try discriminate;
    intros _; reflexivity.
Qed.

Example rsi_up_is_100 :
  calculate_rsi (Raw.closes (Sample.series 100 1000 (Sample.bar 103 3000))) 14
  = Some (F64.of_Z 100).
Proof. vm_compute. reflexivity. Qed.

(** Both NaN reach the record of a flat ticker, which is classified
    "Neutral" because NaN compares false with 70 and with 30. *)
Example flat_record :
  option_map
    (fun r => (rsi r, position_52w r, volume_ratio r,
               rsi_signal (stock_signals r)))
    (analyze_stock Sample.yf "FLAT")
  = Some (F64.nan, F64.nan, F64.of_Z 1, "Neutral").
Proof. vm_compute. reflexivity. Qed.

(** ** Market summary *)

Lemma change_pct_short c :
  (List.length c < 2)%nat -> change_pct c = None.
Proof.
  intros H. unfold change_pct.
  destruct (Series.iloc c (-1)); cbn [bind]; [| reflexivity].
  now rewrite (iloc_back_none c 2 H : Series.iloc c (-2) = None).
Qed.

Lemma change_pct_some c :
  (2 <= List.length c)%nat -> exists x, change_pct c = Some x.
Proof.
  intros H. unfold change_pct.
  destruct (iloc_back_some c 1) as [a Ha]; [lia |].
  destruct (iloc_back_some c 2) as [b Hb]; [lia |].
  cbn [Z.of_nat Z.opp Pos.of_succ_nat Pos.succ] in Ha, Hb.
  rewrite Ha, Hb. cbn [bind]. eauto.
Qed.

Lemma closes_length hist : List.length (Raw.closes hist) = List.length hist.
Proof. apply length_map. Qed.

(** C9, as the code has it: when a fetch raises, or a benchmark series is
    too short to index, [get_market_summary] raises nothing and returns the
    fixed fallback, whose [vix] and [spy_trend] are the marker "N/A" and
    whose two change fields are the number 0; when only the volatility
    series comes back empty, [vix] alone is the marker: both changes are
    the rounded percent changes of the last two closes and the trend
    compares the latest SPY close with the one five bars back. *)
Theorem market_summary_degrades yf :
  (fetch_fails yf \/ benchmark_too_short yf ->
   get_market_summary yf = summary_fallback /\
   spy_change (get_market_summary yf) = PyInt 0 /\
   qqq_change (get_market_summary yf) = PyInt 0 /\
   unavailable (vix (get_market_summary yf)) /\
   unavailable (spy_trend (get_market_summary yf))) /\
  (forall spy qqq,
      history yf "SPY" "5d" = Some spy -> (5 <= List.length spy)%nat ->
      history yf "QQQ" "5d" = Some qqq -> (2 <= List.length qqq)%nat ->
      history yf "^VIX" "1d" = Some [] ->
      unavailable (vix (get_market_summary yf)) /\
      exists spy_last spy_prev spy_back qqq_last qqq_prev,
        Series.iloc (Raw.closes spy) (-1) = Some spy_last /\
        Series.iloc (Raw.closes spy) (-2) = Some spy_prev /\
        Series.iloc (Raw.closes spy) (-5) = Some spy_back /\
        Series.iloc (Raw.closes qqq) (-1) = Some qqq_last /\
        Series.iloc (Raw.closes qqq) (-2) = Some qqq_prev /\
        get_market_summary yf
        = {| spy_change :=
               PyFloat
                 (F64.round
                    ((spy_last - spy_prev) / spy_prev * F64.of_Z 100)%f64 2);
             qqq_change :=
               PyFloat
                 (F64.round
                    ((qqq_last - qqq_prev) / qqq_prev * F64.of_Z 100)%f64 2);
             vix := PyStr "N/A";
             spy_trend :=
               PyStr (if (spy_last >? spy_back)%f64
                      then "Alcista" else "Bajista") |}).
Proof.
  split.
  - intros H.
    enough (E : get_market_summary yf = summary_fallback)
      by (rewrite E; repeat split).
    unfold get_market_summary.
    destruct H as [[H | [H | H]] | [(spy & H & Hlen) | (qqq & H & Hlen)]].
    + now rewrite H.
    + rewrite H. now destruct (history yf "SPY" "5d").
    + rewrite H. now destruct (history yf "SPY" "5d"), (history yf "QQQ" "5d").
    + rewrite H. cbn [bind].
      destruct (history yf "QQQ" "5d") as [qqq|]; cbn [bind]; [| reflexivity].
      destruct (history yf "^VIX" "1d") as [vx|]; cbn [bind]; [| reflexivity].
      destruct (change_pct (Raw.closes spy)); cbn [bind]; [| reflexivity].
      destruct (change_pct (Raw.closes qqq)); cbn [bind]; [| reflexivity].
      match goal with
      | |- context [bind ?c _] => destruct c; cbn [bind]; [| reflexivity]
      end.
      destruct (Series.iloc (Raw.closes spy) (-1)); cbn [bind]; [| reflexivity].
      assert (E : Series.iloc (Raw.closes spy) (-5) = None)
        by (apply (iloc_back_none _ 5); now rewrite closes_length).
      now rewrite E.
    + rewrite H.
      destruct (history yf "SPY" "5d") as [spy|]; cbn [bind]; [| reflexivity].
      destruct (history yf "^VIX" "1d") as [vx|]; cbn [bind]; [| reflexivity].
      destruct (change_pct (Raw.closes spy)); cbn [bind]; [| reflexivity].
      rewrite (change_pct_short (Raw.closes qqq))
        by (now rewrite closes_length).
      reflexivity.
  - intros spy qqq Hspy Ls Hqqq Lq Hvix.
    destruct (iloc_back_some (Raw.closes spy) 1) as [sl Hsl];
      [rewrite closes_length; lia |].
    destruct (iloc_back_some (Raw.closes spy) 2) as [sp Hsp];
      [rewrite closes_length; lia |].
    destruct (iloc_back_some (Raw.closes spy) 5) as [sb Hsb];
      [rewrite closes_length; lia |].
    destruct (iloc_back_some (Raw.closes qqq) 1) as [ql Hql];
      [rewrite closes_length; lia |].
    destruct (iloc_back_some (Raw.closes qqq) 2) as [qp Hqp];
      [rewrite closes_length; lia |].
    cbn [Z.of_nat Z.opp Pos.of_succ_nat Pos.succ] in Hsl, Hsp, Hsb, Hql, Hqp.
    assert (E : get_market_summary yf
                = {| spy_change :=
                       PyFloat
                         (F64.round ((sl - sp) / sp * F64.of_Z 100)%f64 2);
                     qqq_change :=
                       PyFloat
                         (F64.round ((ql - qp) / qp * F64.of_Z 100)%f64 2);
                     vix := PyStr "N/A";
                     spy_trend :=
                       PyStr (if (sl >? sb)%f64
                              then "Alcista" else "Bajista") |}).
    { unfold get_market_summary, change_pct.
      rewrite Hspy, Hqqq, Hvix. cbn [bind].
      rewrite Hsl, Hsp, Hql, Hqp. cbn [bind Series.empty negb].
      rewrite Hsb. reflexivity. }
    split; [rewrite E; reflexivity |].
    exists sl, sp, sb, ql, qp. repeat split; assumption.
Qed.

Lemma market_summary_degrades_witness :
  get_market_summary Sample.down = summary_fallback /\
  spy_change (get_market_summary Sample.down) = PyInt 0 /\
  get_market_summary Cases.week
  = {| spy_change := PyFloat (F64.of_Z 0);
       qqq_change := PyFloat (F64.of_Z 0);
       vix := PyStr "N/A";
       spy_trend := PyStr "Bajista" |}.
Proof.
  destruct (proj1 (market_summary_degrades Sample.down)) as (H1 & H2 & _);
    [left; left; reflexivity |].
  split; [exact H1 |]. split; [exact H2 |].
  destruct (proj2 (market_summary_degrades Cases.week)
              (repeat (Sample.bar 100 1000) 5)
              (repeat (Sample.bar 100 1000) 5)
              eq_refl ltac:(cbn; lia) eq_refl ltac:(cbn; lia) eq_refl)
    as (_ & sl & sp & sb & ql & qp & Hsl & Hsp & Hsb & Hql & Hqp & E).
  vm_compute in Hsl, Hsp, Hsb, Hql, Hqp.
  injection Hsl as <-. injection Hsp as <-. injection Hsb as <-.
  injection Hql as <-. injection Hqp as <-.
  rewrite E. vm_compute. reflexivity.
Defined.

(** C9, as stated, fails: with every fetch raising, the summary reports the
    number 0 for both benchmark changes, not a marker. *)
Lemma market_summary_not_all_unavailable :
  fetch_fails Sample.down /\ ~ all_unavailable (get_market_summary Sample.down).
Proof.
  split.
  - left. reflexivity.
  - intros (H & _). vm_compute in H. discriminate H.
Qed.

(** In a descending list any two members are comparable. *)
Lemma descending_comparable {A : Type} (key : A -> F64.t) (l : list A) a b :
  descending key l -> In a l -> In b l ->
  a = b \/ before key a b \/ before key b a.
Proof.
  unfold descending. induction 1 as [|x l Hs IH Hx]; intros Ha Hb.
  - destruct Ha.
  - rewrite Forall_forall in Hx.
    destruct Ha as [<- | Ha], Hb as [<- | Hb]; auto.
Qed.

(** C1, as the code has it: for a limit that is not negative and scores
    none of which is NaN, [get_top_movers] returns the first [limit] records
    of the scan sorted by descending movement score, records of equal score
    in the order of the watchlist; all of them when the limit is not below
    their number.  The scan holds the records of the tickers that were
    analysed, in watchlist order. *)
Theorem get_top_movers_ranked yf watchlist limit :
  0 <= limit ->
  no_nan movement_score (analyzed_stocks yf watchlist) ->
  analyzed_stocks yf watchlist = flat_map (records_of yf) watchlist /\
  ranked_shortlist (analyzed_stocks yf watchlist) limit
    (get_top_movers_of watchlist yf limit) /\
  (Z.of_nat (List.length (analyzed_stocks yf watchlist)) <= limit ->
   Permutation (get_top_movers_of watchlist yf limit)
     (analyzed_stocks yf watchlist)) /\
  (List.length (get_top_movers_of watchlist yf limit) <= Z.to_nat limit)%nat.
Proof.
  intros Hlimit Hnan. split; [apply analyzed_stocks_flat_map |].
  unfold get_top_movers_of.
  set (scanned := analyzed_stocks yf watchlist) in *.
  split; [| split].
  - exists (sort_reverse movement_score scanned).
    split; [apply sort_reverse_perm |].
    split; [now apply sort_reverse_descending |].
    split; [apply sort_reverse_stable |].
    now apply slice_to_nonneg.
  - intros Hall. rewrite slice_to_all; [apply sort_reverse_perm |].
    now rewrite (Permutation_length (sort_reverse_perm movement_score scanned)).
  - rewrite slice_to_nonneg by assumption. apply firstn_le_length.
Qed.

Lemma get_top_movers_ranked_witness :
  ranked_shortlist (analyzed_stocks Sample.yf ["B"; "SHORT"; "A"; "UP"; "UP2"]) 3
    (get_top_movers_of ["B"; "SHORT"; "A"; "UP"; "UP2"] Sample.yf 3) /\
  map (fun m => symbol (data m))
    (get_top_movers_of ["B"; "SHORT"; "A"; "UP"; "UP2"] Sample.yf 3)
  = ["A"; "UP"; "UP2"].
Proof.
  split.
  - refine (proj1 (proj2 (get_top_movers_ranked Sample.yf
                            ["B"; "SHORT"; "A"; "UP"; "UP2"] 3 _ _))).
    + lia.
    + vm_compute. repeat constructor.
  - vm_compute. reflexivity.
Defined.

(** The scenario of the specification: A moves 5% on twice its usual
    volume, B moves -8% on its usual volume, the fetch of C raises. *)
Example scan_scenario :
  map (fun m => (symbol (data m), movement_score m))
    (get_top_movers_of ["A"; "B"; "C"] Sample.yf 5)
  = [("A", F64.of_Z 10); ("B", F64.of_Z 8)].
Proof. vm_compute. reflexivity. Qed.

(** With the scores 8, NaN and 10 in scan order nothing moves: B stays
    ahead of A. *)
Example gap_blocks_sort :
  map (fun m => symbol (data m))
    (get_top_movers_of ["B"; "GAP"; "A"] Sample.yf 5)
  = ["B"; "GAP"; "A"].
Proof. vm_compute. reflexivity. Qed.

(** C1, as stated, fails twice.  With the limit -1 the slice drops the last
    record of the sorted list instead of returning none; and when a score is
    NaN (GAP, whose latest close is missing) no arrangement of the records is
    descending. *)
Lemma get_top_movers_not_ranked :
  ~ ranked_shortlist (analyzed_stocks Sample.yf ["A"; "B"]) (-1)
      (get_top_movers_of ["A"; "B"] Sample.yf (-1)) /\
  ~ ranked_shortlist (analyzed_stocks Sample.yf ["B"; "GAP"; "A"]) 5
      (get_top_movers_of ["B"; "GAP"; "A"] Sample.yf 5).
Proof.
  split.
  - intros (sorted & _ & _ & _ & H).
    change (firstn (Z.to_nat (-1)) sorted) with (@nil mover) in H.
    apply (f_equal (@List.length _)) in H. vm_compute in H. discriminate H.
  - intros (sorted & Hp & Hd & _ & _).
    destruct (analyze_stock Sample.yf "A") as [a|] eqn:Ea;
      [| vm_compute in Ea; discriminate Ea].
    destruct (analyze_stock Sample.yf "GAP") as [g|] eqn:Eg;
      [| vm_compute in Eg; discriminate Eg].
    assert (Ha : In (with_score a) sorted).
    { eapply Permutation_in; [apply Permutation_sym, Hp |].
      apply (proj2 (in_analyzed_stocks _ _ _)). exists "A", a.
      split; [right; right; left; reflexivity |]. now split. }
    assert (Hg : In (with_score g) sorted).
    { eapply Permutation_in; [apply Permutation_sym, Hp |].
      apply (proj2 (in_analyzed_stocks _ _ _)). exists "GAP", g.
      split; [right; left; reflexivity |]. now split. }
    vm_compute in Ea. injection Ea as <-.
    vm_compute in Eg. injection Eg as <-.
    destruct (descending_comparable _ _ _ _ Hd Ha Hg) as [E | [E | E]];
      vm_compute in E; discriminate E.
Qed.

(** * Further properties of the script *)

(** ** The RSI label and the agreement of the labels *)

Lemma leb_70_30 : F64.leb (F64.of_Z 70) (F64.of_Z 30) = false.
Proof. reflexivity. Qed.

Lemma above_70_not_below_30 rsi :
  (rsi >? F64.of_Z 70)%f64 = true -> (rsi <? F64.of_Z 30)%f64 = false.
Proof.
  unfold F64.gtb. intros H.
  destruct (rsi <? F64.of_Z 30)%f64 eqn:E; [| reflexivity].
  apply F64Facts.ltb_leb in H. apply F64Facts.ltb_leb in E.
  pose proof (F64Facts.leb_trans _ _ _ H E) as T.
  rewrite leb_70_30 in T. discriminate T.
Qed.

(** X1: the RSI label is "Sobrecompra" exactly above 70, "Sobreventa"
    exactly below 30 and "Neutral" in between, both bounds included; a NaN
    RSI, which compares false with everything, is labelled "Neutral". *)
Theorem rsi_signal_spec rsi price sma20 sma50 :
  let s := get_technical_signals rsi price sma20 sma50 in
  (rsi_signal s = "Sobrecompra" <-> (rsi >? F64.of_Z 70)%f64 = true) /\
  (rsi_signal s = "Sobreventa" <-> (rsi <? F64.of_Z 30)%f64 = true) /\
  (rsi_signal s = "Neutral"
   <-> (rsi >? F64.of_Z 70)%f64 = false /\ (rsi <? F64.of_Z 30)%f64 = false) /\
  (F64.is_nan rsi = true -> rsi_signal s = "Neutral") /\
  ((rsi =? F64.of_Z 70)%f64 = true \/ (rsi =? F64.of_Z 30)%f64 = true ->
   rsi_signal s = "Neutral").
Proof.
  cbv zeta. cbn [rsi_signal get_technical_signals].
  pose proof (above_70_not_below_30 rsi) as X.
  assert (N : F64.is_nan rsi = true ->
              (rsi >? F64.of_Z 70)%f64 = false /\
              (rsi <? F64.of_Z 30)%f64 = false)
    by (destruct rsi; try discriminate; intros _; split; reflexivity).
  assert (B : (rsi =? F64.of_Z 70)%f64 = true \/ (rsi =? F64.of_Z 30)%f64 = true ->
              (rsi >? F64.of_Z 70)%f64 = false /\
              (rsi <? F64.of_Z 30)%f64 = false).
  { intros [H | H]; pose proof (F64Facts.eqb_not_ltb _ _ H) as [H1 H2];
      unfold F64.gtb, F64.ltb in *; split; trivial.
    - destruct (SFltb rsi (F64.of_Z 30)) eqn:E; [| reflexivity].
      assert (L : F64.leb (F64.of_Z 70) rsi = true).
      { unfold F64.eqb, SFeqb in H. unfold F64.leb, SFleb.
        destruct (SFcompare rsi (F64.of_Z 70)) as [[]|] eqn:C;
          try discriminate H.
        now rewrite (F64Facts.compare_antisym _ _ _ C). }
      pose proof (F64Facts.leb_trans _ _ _ L (F64Facts.ltb_leb _ _ E)) as T.
      rewrite leb_70_30 in T. discriminate T.
    - destruct (SFltb (F64.of_Z 70) rsi) eqn:E; [| reflexivity].
      assert (L : F64.leb rsi (F64.of_Z 30) = true).
      { unfold F64.eqb, SFeqb in H. unfold F64.leb, SFleb.
        now destruct (SFcompare rsi (F64.of_Z 30)) as [[]|]. }
      pose proof (F64Facts.leb_trans _ _ _ (F64Facts.ltb_leb _ _ E) L) as T.
      rewrite leb_70_30 in T. discriminate T. }
  destruct (rsi >? F64.of_Z 70)%f64 eqn:E1, (rsi <? F64.of_Z 30)%f64 eqn:E2;
    try (specialize (X eq_refl); discriminate X);
    repeat split; intros; try discriminate; try reflexivity;
    try (destruct N as [? ?]; [assumption | discriminate]);
    try (destruct B as [? ?]; [assumption | discriminate]);
    try (destruct H; discriminate).
Qed.

(** X2: the labels of one record agree: an "Alcista" trend comes with a
    Golden Cross and a "Bajista" trend with a Death Cross; with a Golden
    Cross the trend is never "Bajista", with a Death Cross never
    "Alcista". *)
Theorem trend_agrees_with_cross rsi price sma20 sma50 :
  let s := get_technical_signals rsi price sma20 sma50 in
  (trend_signal s = "Alcista" -> ma_signal s = "Golden Cross (alcista)") /\
  (trend_signal s = "Bajista" -> ma_signal s = "Death Cross (bajista)") /\
  (ma_signal s = "Golden Cross (alcista)" -> trend_signal s <> "Bajista") /\
  (ma_signal s = "Death Cross (bajista)" -> trend_signal s <> "Alcista").
Proof.
  cbv zeta. cbn [trend_signal ma_signal get_technical_signals].
  assert (A : (sma20 >? sma50)%f64 = true -> (sma20 <? sma50)%f64 = false).
  { unfold F64.gtb. intros H. apply F64Facts.ltb_asym in H. exact H. }
  destruct (sma20 >? sma50)%f64 eqn:G.
  - rewrite (A eq_refl), andb_false_r.
    destruct ((price >? sma20)%f64 && true); repeat split; intros;
      try discriminate; try reflexivity.
  - rewrite andb_false_r.
    destruct ((price <? sma20)%f64 && (sma20 <? sma50)%f64); repeat split;
      intros; try discriminate; try reflexivity.
Qed.

Lemma trend_agrees_with_cross_witness :
  ma_signal
    (get_technical_signals (F64.of_Z 50) (F64.of_Z 3) (F64.of_Z 2) (F64.of_Z 1))
  = "Golden Cross (alcista)".
Proof.
  apply (proj1 (trend_agrees_with_cross
                  (F64.of_Z 50) (F64.of_Z 3) (F64.of_Z 2) (F64.of_Z 1))).
  reflexivity.
Defined.

(** ** When the analysis succeeds *)

Lemma iloc_last_some {A : Type} (s : list A) :
  s <> [] -> exists a, Series.iloc s (-1) = Some a.
Proof.
  intros H. apply (iloc_back_some s 1). destruct s; [congruence | cbn; lia].
Qed.

Lemma not_nil_of_length {A : Type} (s : list A) :
  (0 < List.length s)%nat -> s <> [].
Proof. intros H E. subst s. cbn in H. lia. Qed.

Lemma calculate_sma_nonempty prices period :
  prices <> [] ->
  calculate_sma prices period
  = Some (Series.window_mean period (Series.prep prices)).
Proof. apply iloc_last_rolling_mean. Qed.

Lemma avg_gain_nonempty prices period :
  prices <> [] -> exists g, avg_gain prices period = Some g.
Proof.
  intros H. unfold avg_gain. rewrite iloc_last_rolling_mean; [eauto |].
  apply not_nil_of_length. unfold Series.where_.
  rewrite length_map, diff_length. destruct prices; [congruence | cbn; lia].
Qed.

Lemma avg_loss_nonempty prices period :
  prices <> [] -> exists l, avg_loss prices period = Some l.
Proof.
  intros H. unfold avg_loss. rewrite iloc_last_rolling_mean; [eauto |].
  apply not_nil_of_length. unfold Series.where_.
  rewrite !length_map, diff_length. destruct prices; [congruence | cbn; lia].
Qed.

Lemma calculate_rsi_nonempty prices period :
  prices <> [] -> exists x, calculate_rsi prices period = Some x.
Proof.
  intros H. rewrite calculate_rsi_latest.
  destruct (avg_gain_nonempty prices period H) as [g ->].
  destruct (avg_loss_nonempty prices period H) as [l ->]. eauto.
Qed.

Lemma calculate_ema_nonempty prices period :
  1 <= period ->
  prices <> [] -> exists x, calculate_ema prices period = Some x.
Proof.
  intros Hp H. unfold calculate_ema.
  rewrite (proj2 (Z.ltb_ge period 1) Hp).
  apply iloc_last_some. unfold Series.ewm_mean.
  destruct prices; [congruence | discriminate].
Qed.

Lemma true_range_length hist :
  List.length (Raw.true_range hist) = List.length hist.
Proof.
  unfold Raw.true_range.
  rewrite !map2_length, !length_map, !map2_length, !length_map, shift_length.
  unfold Raw.closes. rewrite length_map. lia.
Qed.

(** With two bars or more every indicator is computed: no index is out of
    range whatever the prices are. *)
Lemma of_hist_total hist :
  (2 <= List.length hist)%nat -> exists v, Locals.of_hist hist = Some v.
Proof.
  intros H. unfold Locals.of_hist.
  assert (Hc : Raw.closes hist <> [])
    by (apply not_nil_of_length; rewrite closes_length; lia).
  assert (Hv : Raw.volumes hist <> [])
    by (apply not_nil_of_length; unfold Raw.volumes; rewrite length_map; lia).
  destruct (iloc_back_some (Raw.closes hist) 1) as [cp Hcp];
    [rewrite closes_length; lia |].
  destruct (iloc_back_some (Raw.closes hist) 2) as [pc Hpc];
    [rewrite closes_length; lia |].
  cbn [Z.of_nat Z.opp Pos.of_succ_nat Pos.succ] in Hcp, Hpc.
  rewrite Hcp, Hpc. cbn [bind].
  rewrite (iloc_last_rolling_mean 20 _ Hv). cbn [bind].
  destruct (iloc_last_some _ Hv) as [cv ->]. cbn [bind].
  destruct (calculate_rsi_nonempty _ 14 Hc) as [r ->]. cbn [bind].
  rewrite !(calculate_sma_nonempty _ _ Hc). cbn [bind].
  destruct (calculate_ema_nonempty _ 12 ltac:(lia) Hc) as [e12 ->].
  destruct (calculate_ema_nonempty _ 26 ltac:(lia) Hc) as [e26 ->].
  cbn [bind].
  rewrite iloc_last_rolling_mean
    by (apply not_nil_of_length; rewrite true_range_length; lia).
  cbn [bind]. eauto.
Qed.

(** X3: [analyze_stock] returns a record exactly when the history fetch
    returns at least 50 bars and the company details can be fetched; given
    those, no price or volume (zero, infinite or missing) makes the
    computation raise. *)
Theorem analyze_stock_succeeds_iff yf sym :
  (exists r, analyze_stock yf sym = Some r) <->
  (exists hist inf,
      history yf sym "3mo" = Some hist /\
      (50 <= List.length hist)%nat /\
      info yf sym = Some inf).
Proof.
  split.
  - intros [r H].
    apply analyze_stock_some in H as (hist & inf & v & Hh & Hl & _ & Hi & _).
    now exists hist, inf.
  - intros (hist & inf & Hh & Hl & Hi).
    destruct (of_hist_total hist) as [v Hv]; [lia |].
    exists (record_of sym inf v). apply analyze_stock_some.
    now exists hist, inf, v.
Qed.

(** ** What the ranking returns *)

Lemma records_of_symbols yf sym :
  map (fun m => symbol (data m)) (records_of yf sym)
  = if analysed yf sym then [sym] else [].
Proof.
  unfold records_of, analysed.
  destruct (analyze_stock yf sym) as [d|] eqn:E; [| reflexivity].
  apply analyze_stock_some in E as (hist & inf & v & _ & _ & _ & _ & ->).
  reflexivity.
Qed.

(** The symbols of the scanned records are the tickers of the watchlist
    that were analysed, in watchlist order. *)
Lemma analyzed_stocks_symbols yf watchlist :
  map (fun m => symbol (data m)) (analyzed_stocks yf watchlist)
  = filter (analysed yf) watchlist.
Proof.
  rewrite analyzed_stocks_flat_map.
  induction watchlist as [|sym wl IH]; [reflexivity |].
  cbn [flat_map filter]. rewrite map_app, IH, records_of_symbols.
  now destruct (analysed yf sym).
Qed.

Lemma slice_to_firstn {A : Type} (l : list A) (stop : Z) :
  exists n, slice_to l stop = firstn n l.
Proof.
  unfold slice_to. destruct (0 <=? stop); eauto.
Qed.

Lemma NoDup_firstn {A : Type} (n : nat) (l : list A) :
  NoDup l -> NoDup (firstn n l).
Proof.
  intros H. rewrite <- (firstn_skipn n l) in H.
  now apply NoDup_app_remove_r in H.
Qed.

(** X5: every record [get_top_movers] returns belongs to a ticker of the
    watchlist that was analysed; there are no more records than tickers,
    and a watchlist without repetition gives a ranking without
    repetition. *)
Theorem top_movers_from_watchlist yf watchlist limit :
  let symbols :=
    map (fun m => symbol (data m)) (get_top_movers_of watchlist yf limit) in
  Forall (fun sym => In sym watchlist /\ analysed yf sym = true) symbols /\
  (List.length (get_top_movers_of watchlist yf limit)
   <= List.length watchlist)%nat /\
  (NoDup watchlist -> NoDup symbols).
Proof.
  cbv zeta. unfold get_top_movers_of.
  set (sorted := sort_reverse movement_score (analyzed_stocks yf watchlist)).
  assert (P : Permutation
                (map (fun m => symbol (data m)) sorted)
                (filter (analysed yf) watchlist)).
  { rewrite <- analyzed_stocks_symbols. apply Permutation_map.
    apply sort_reverse_perm. }
  destruct (slice_to_firstn sorted limit) as [n ->].
  rewrite <- firstn_map.
  split; [| split].
  - apply Forall_forall. intros sym Hin.
    assert (Hs : In sym (map (fun m => symbol (data m)) sorted)).
    { rewrite <- (firstn_skipn n (map _ sorted)). apply in_or_app. now left. }
    apply (Permutation_in _ P), filter_In in Hs. exact Hs.
  - rewrite length_firstn.
    eapply Nat.le_trans; [apply Nat.le_min_r |].
    rewrite <- (length_map (fun m => symbol (data m)) sorted).
    rewrite (Permutation_length P). apply filter_length_le.
  - intros Hnd. apply NoDup_firstn.
    apply (Permutation_NoDup (Permutation_sym P)).
    now apply NoDup_filter.
Qed.

Lemma top_movers_from_watchlist_witness :
  NoDup
    (map (fun m => symbol (data m))
       (get_top_movers_of ["B"; "SHORT"; "A"; "UP"] Sample.yf 3)).
Proof.
  apply (proj2 (proj2 (top_movers_from_watchlist
                         Sample.yf ["B"; "SHORT"; "A"; "UP"] 3))).
  repeat constructor; cbn; intuition discriminate.
Defined.

(** X6: the rankings for two limits agree: for [0 <= k <= k'] the ranking
    of limit [k] is the first [k] records of the ranking of limit [k']. *)
Theorem top_movers_prefix yf watchlist k k' :
  0 <= k <= k' ->
  get_top_movers_of watchlist yf k
  = firstn (Z.to_nat k) (get_top_movers_of watchlist yf k').
Proof.
  intros H. unfold get_top_movers_of.
  rewrite !slice_to_nonneg by lia. rewrite firstn_firstn.
  f_equal. lia.
Qed.

Lemma top_movers_prefix_witness :
  get_top_movers_of ["B"; "A"; "UP"] Sample.yf 2
  = firstn 2 (get_top_movers_of ["B"; "A"; "UP"] Sample.yf 5).
Proof.
  apply (top_movers_prefix Sample.yf ["B"; "A"; "UP"] 2 5). lia.
Defined.

Lemma flat_map_nil {A B : Type} (f : A -> list B) (l : list A) :
  flat_map f l = [] <-> forall a, In a l -> f a = [].
Proof.
  induction l as [|x l IH]; cbn [flat_map].
  - split; [intros _ a [] | reflexivity].
  - split.
    + intros H. apply app_eq_nil in H as [Hx Hl].
      intros a [<- | Ha]; [exact Hx | now apply IH].
    + intros H. rewrite (H x (or_introl eq_refl)).
      apply IH. intros a Ha. apply H. now right.
Qed.

(** X7: with a limit of at least 1 the ranking is empty exactly when no
    ticker of the watchlist could be analysed; this is the case the script
    reports as "No se pudieron analizar acciones". *)
Theorem top_movers_empty_iff yf watchlist limit :
  1 <= limit ->
  (get_top_movers_of watchlist yf limit = [] <->
   forall sym, In sym watchlist -> analyze_stock yf sym = None).
Proof.
  intros Hl. unfold get_top_movers_of. rewrite slice_to_nonneg by lia.
  set (scanned := analyzed_stocks yf watchlist).
  assert (E : firstn (Z.to_nat limit) (sort_reverse movement_score scanned) = []
              <-> scanned = []).
  { pose proof (sort_reverse_perm movement_score scanned) as P.
    destruct (sort_reverse movement_score scanned) as [|m l] eqn:S.
    - apply Permutation_nil in P. rewrite P. now rewrite firstn_nil.
    - destruct (Z.to_nat limit) as [|n] eqn:N; [lia |].
      split; [discriminate |].
      intros ->. apply Permutation_sym, Permutation_nil in P. discriminate P. }
  rewrite E. subst scanned. rewrite analyzed_stocks_flat_map, flat_map_nil.
  unfold records_of. split; intros H sym Hin; specialize (H sym Hin).
  - now destruct (analyze_stock yf sym).
  - now rewrite H.
Qed.

Lemma top_movers_empty_iff_witness :
  get_top_movers_of ["SHORT"; "EMPTY"; "C"] Sample.yf 5 = [].
Proof.
  apply (proj2 (top_movers_empty_iff Sample.yf ["SHORT"; "EMPTY"; "C"] 5
                  ltac:(lia))).
  intros sym [<- | [<- | [<- | []]]]; reflexivity.
Defined.

(** ** The sign of the movement score *)

Lemma binary_round_aux_sign m e l :
  sign_clear (binary_round_aux F64.prec F64.emax false m e l) = true.
Proof.
  unfold binary_round_aux.
  destruct (shr_fexp F64.prec F64.emax m e l) as [mrs e'].
  destruct (shr_fexp F64.prec F64.emax _ e' loc_Exact) as [mrs' e''].
  destruct (shr_m mrs'); [reflexivity | | reflexivity].
  now destruct (e'' <=? F64.emax - F64.prec).
Qed.

Lemma binary_round_sign m e :
  sign_clear (binary_round F64.prec F64.emax false m e) = true.
Proof.
  unfold binary_round.
  destruct (shl_align m e _) as [mz ez]. apply binary_round_aux_sign.
Qed.

Lemma binary_normalize_sign n :
  0 <= n -> sign_clear (binary_normalize F64.prec F64.emax n 0 false) = true.
Proof.
  intros H. destruct n as [|p|p]; [reflexivity | | lia].
  apply binary_round_sign.
Qed.

Lemma of_Z_sign n : 0 <= n -> sign_clear (F64.of_Z n) = true.
Proof. apply binary_normalize_sign. Qed.

Lemma abs_sign x : sign_clear (F64.abs x) = true.
Proof. now destruct x. Qed.

Lemma mul_sign x y :
  sign_clear x = true -> sign_clear y = true -> sign_clear (x * y)%f64 = true.
Proof.
  destruct x as [[|]|[|]| |[|] mx ex], y as [[|]|[|]| |[|] my ey];
    try discriminate; intros _ _; try reflexivity.
  apply binary_round_aux_sign.
Qed.

Lemma div_sign x y :
  sign_clear x = true -> sign_clear y = true -> sign_clear (x / y)%f64 = true.
Proof.
  destruct x as [[|]|[|]| |[|] mx ex], y as [[|]|[|]| |[|] my ey];
    try discriminate; intros _ _; try reflexivity.
  unfold F64.div, SFdiv.
  destruct (SFdiv_core_binary F64.prec F64.emax (Z.pos mx) ex (Z.pos my) ey)
    as [[mz ez] lz].
  apply binary_round_aux_sign.
Qed.

Lemma rint_sign x : sign_clear x = true -> sign_clear (F64.rint x) = true.
Proof.
  destruct x as [s|s| |[|] m e]; try discriminate; intros H; try exact H.
  unfold F64.rint. destruct (0 <=? e) eqn:E; [reflexivity |].
  apply Z.leb_gt in E. cbv zeta.
  apply binary_normalize_sign.
  assert (D : 0 < 2 ^ (- e)) by (apply Z.pow_pos_nonneg; lia).
  pose proof (Z.div_pos (Z.pos m) (2 ^ (- e)) ltac:(lia) D) as Q.
  destruct (2 * (Z.pos m mod 2 ^ (- e)) ?= 2 ^ (- e)); try lia.
  destruct (Z.even (Z.pos m / 2 ^ (- e))); lia.
Qed.

Lemma round_sign x ndigits :
  sign_clear x = true -> sign_clear (F64.round x ndigits) = true.
Proof.
  intros H. unfold F64.round. cbv zeta.
  assert (F : sign_clear (F64.of_Z (10 ^ ndigits)) = true)
    by (apply of_Z_sign, Z.pow_nonneg; lia).
  apply div_sign; [| exact F]. apply rint_sign. now apply mul_sign.
Qed.

Lemma positive_sign x : (x >? F64.of_Z 0)%f64 = true -> sign_clear x = true.
Proof.
  destruct x as [s|[|]| |[|] m e]; try discriminate; reflexivity.
Qed.

Lemma volume_ratio_sign current_volume avg_volume :
  sign_clear current_volume = true ->
  sign_clear (Raw.volume_ratio current_volume avg_volume) = true.
Proof.
  intros H. unfold Raw.volume_ratio.
  destruct (avg_volume >? F64.of_Z 0)%f64 eqn:E; [| reflexivity].
  apply div_sign; [exact H | now apply positive_sign].
Qed.

Lemma sign_clear_not_negative x :
  sign_clear x = true -> (x <? F64.of_Z 0)%f64 = false.
Proof.
  destruct x as [s|[|]| |[|] m e]; try discriminate; reflexivity.
Qed.

(** X8: when no volume of the fetched histories is negative, no movement
    score is below zero: each returned score is NaN or has its sign bit
    clear, so that comparing it with zero by [<] is false. *)
Theorem movement_score_not_negative yf watchlist limit :
  (forall sym hist,
      In sym watchlist -> history yf sym "3mo" = Some hist ->
      volumes_nonneg hist) ->
  Forall
    (fun m =>
       sign_clear (movement_score m) = true /\
       (movement_score m <? F64.of_Z 0)%f64 = false)
    (get_top_movers_of watchlist yf limit).
Proof.
  intros Hvol. apply Forall_forall. intros m Hm.
  apply in_get_top_movers_inv in Hm
    as (sym & hist & inf & v & Hin & Hh & _ & Hv & ->).
  assert (S : sign_clear (movement_score (with_score (record_of sym inf v)))
              = true).
  { cbn [movement_score with_score daily_change_pct volume_ratio record_of].
    apply mul_sign; [apply abs_sign |]. apply round_sign.
    destruct (of_hist_volume_ratio _ _ Hv) as (Hcur & _ & ->).
    apply volume_ratio_sign.
    apply iloc_In in Hcur. unfold Raw.volumes in Hcur.
    apply in_map_iff in Hcur as (b & <- & Hb).
    apply of_Z_sign.
    specialize (Hvol sym hist Hin Hh). unfold volumes_nonneg in Hvol.
    rewrite Forall_forall in Hvol. now apply Hvol. }
  split; [exact S | now apply sign_clear_not_negative].
Qed.

Lemma movement_score_not_negative_witness :
  Forall
    (fun m =>
       sign_clear (movement_score m) = true /\
       (movement_score m <? F64.of_Z 0)%f64 = false)
    (get_top_movers_of ["B"; "A"] Sample.yf 5).
Proof.
  apply (movement_score_not_negative Sample.yf ["B"; "A"] 5).
  intros sym hist [<- | [<- | []]] H; vm_compute in H; injection H as <-;
    unfold volumes_nonneg; apply Forall_forall; intros b Hb;
    repeat (destruct Hb as [<- | Hb]; [cbn; lia |]); destruct Hb.
Defined.

(** ** Indicators on short series *)

Lemma window_mean_short w s :
  (List.length s < w)%nat -> Series.window_mean w s = F64.nan.
Proof.
  intros H. unfold Series.window_mean.
  now rewrite (proj2 (Nat.ltb_lt _ _) H).
Qed.

(** X9: [calculate_sma] raises (an [IndexError], here [None]) exactly on
    an empty series; on a series that is not empty but shorter than the
    period it returns NaN, no error. *)
Theorem calculate_sma_short prices period :
  (calculate_sma prices period = None <-> prices = []) /\
  (prices <> [] -> (List.length prices < period)%nat ->
   calculate_sma prices period = Some F64.nan).
Proof.
  split; [split |].
  - intros H. destruct prices as [|x s]; [reflexivity |].
    rewrite calculate_sma_nonempty in H by discriminate. discriminate H.
  - intros ->. reflexivity.
  - intros Hne Hlen. rewrite calculate_sma_nonempty by assumption.
    now rewrite window_mean_short by (now rewrite prep_length).
Qed.

Lemma calculate_sma_short_witness :
  calculate_sma [F64.of_Z 1; F64.of_Z 2; F64.of_Z 3] 20 = Some F64.nan.
Proof.
  apply (proj2 (calculate_sma_short [F64.of_Z 1; F64.of_Z 2; F64.of_Z 3] 20)).
  - discriminate.
  - cbn. lia.
Defined.

Lemma rsi_of_nan_gain loss : rsi_of F64.nan loss = F64.nan.
Proof. now destruct loss. Qed.

(** X10: [calculate_rsi] raises exactly on an empty series; on a series
    that is not empty but shorter than the period both trailing averages
    are missing and it returns NaN, no error. *)
Theorem calculate_rsi_short prices period :
  (calculate_rsi prices period = None <-> prices = []) /\
  (prices <> [] -> (List.length prices < period)%nat ->
   calculate_rsi prices period = Some F64.nan).
Proof.
  split; [split |].
  - intros H. destruct prices as [|x s]; [reflexivity |].
    destruct (calculate_rsi_nonempty (x :: s) period) as [r Hr];
      [discriminate | congruence].
  - intros ->. reflexivity.
  - intros Hne Hlen. rewrite calculate_rsi_latest.
    assert (G : avg_gain prices period = Some F64.nan).
    { unfold avg_gain. rewrite iloc_last_rolling_mean.
      - f_equal. apply window_mean_short. unfold Series.where_.
        now rewrite prep_length, length_map, diff_length.
      - apply not_nil_of_length. unfold Series.where_.
        rewrite length_map, diff_length.
        destruct prices; [congruence | cbn; lia]. }
    rewrite G. destruct (avg_loss_nonempty prices period Hne) as [l ->].
    now rewrite rsi_of_nan_gain.
Qed.

Lemma calculate_rsi_short_witness :
  calculate_rsi [F64.of_Z 1; F64.of_Z 2; F64.of_Z 3] 14 = Some F64.nan.
Proof.
  apply (proj2 (calculate_rsi_short [F64.of_Z 1; F64.of_Z 2; F64.of_Z 3] 14)).
  - discriminate.
  - cbn. lia.
Defined.

Lemma zero_of_eqb l :
  (l =? F64.of_Z 0)%f64 = true -> exists s, l = S754_zero s.
Proof.
  destruct l as [s|[|]| |[|] m e]; try discriminate; eauto.
Qed.

(** X11: whenever the trailing average loss is zero and the trailing
    average gain is positive, [calculate_rsi] returns exactly 100: the
    quotient gain/0 is an infinity and 100/(1 + infinity) is zero. *)
Theorem calculate_rsi_all_gain prices period gain loss :
  avg_gain prices period = Some gain ->
  avg_loss prices period = Some loss ->
  (gain >? F64.of_Z 0)%f64 = true ->
  (loss =? F64.of_Z 0)%f64 = true ->
  calculate_rsi prices period = Some (F64.of_Z 100).
Proof.
  intros Hg Hl Hpos Hzero. rewrite calculate_rsi_latest, Hg, Hl.
  apply zero_of_eqb in Hzero as [s ->].
  now rewrite rsi_of_zero_loss.
Qed.

Lemma calculate_rsi_all_gain_witness :
  calculate_rsi (Raw.closes (Sample.series 100 1000 (Sample.bar 103 3000))) 14
  = Some (F64.of_Z 100).
Proof.
  eapply (calculate_rsi_all_gain _ 14).
  - vm_compute. reflexivity.
  - vm_compute. reflexivity.
  - reflexivity.
  - reflexivity.
Defined.

(** X12: [calculate_ema] raises for every span below 1; for a span of at
    least 1 it raises exactly on an empty series and asks for no minimum
    length: on a single bar it returns that bar, the seed of the average, an
    infinite bar counting as missing. *)
Theorem calculate_ema_short prices period :
  (period < 1 -> calculate_ema prices period = None) /\
  (1 <= period ->
   (calculate_ema prices period = None <-> prices = []) /\
   (forall x,
       calculate_ema [x] period
       = Some (if F64.is_inf x then F64.nan else x))).
Proof.
  split.
  - intros H. unfold calculate_ema. now rewrite (proj2 (Z.ltb_lt period 1) H).
  - intros H. split; [split |].
    + intros E. destruct prices as [|x s]; [reflexivity |].
      destruct (calculate_ema_nonempty (x :: s) period H) as [r Hr];
        [discriminate | congruence].
    + intros ->. unfold calculate_ema.
      now rewrite (proj2 (Z.ltb_ge period 1) H).
    + intros x. unfold calculate_ema.
      rewrite (proj2 (Z.ltb_ge period 1) H). reflexivity.
Qed.

Lemma calculate_ema_short_witness :
  calculate_ema [] 12 = None /\
  calculate_ema [F64.of_Z 7] 12 = Some (F64.of_Z 7) /\
  calculate_ema [F64.of_Z 7] 0 = None.
Proof.
  destruct (calculate_ema_short [] 12) as [_ H12].
  destruct (H12 ltac:(lia)) as [Hnil _].
  destruct (calculate_ema_short [F64.of_Z 7] 12) as [_ H7].
  destruct (H7 ltac:(lia)) as [_ Hone].
  destruct (calculate_ema_short [F64.of_Z 7] 0) as [H0 _].
  split; [apply (proj2 Hnil); reflexivity |].
  split; [exact (Hone (F64.of_Z 7)) | apply H0; lia].
Defined.

(** ** A zero previous close *)

Lemma daily_change_pct_zero_previous current_price :
  (current_price >? F64.of_Z 0)%f64 = true ->
  Raw.daily_change_pct current_price (F64.of_Z 0) = S754_infinity false.
Proof.
  destruct current_price as [s|[|]| |[|] m e]; try discriminate; reflexivity.
Qed.

Lemma daily_change_pct_zero_zero current_price :
  (current_price =? F64.of_Z 0)%f64 = true ->
  Raw.daily_change_pct current_price (F64.of_Z 0) = F64.nan.
Proof.
  destruct current_price as [[|]|[|]| |[|] m e]; try discriminate; reflexivity.
Qed.

(** X13: a previous close of zero raises nothing: the record is returned
    with a daily change of plus infinity when the latest close is positive,
    and of NaN when the latest close is zero as well. *)
Theorem zero_previous_close yf sym hist r current_price :
  history yf sym "3mo" = Some hist ->
  analyze_stock yf sym = Some r ->
  Series.iloc (Raw.closes hist) (-2) = Some (F64.of_Z 0) ->
  Series.iloc (Raw.closes hist) (-1) = Some current_price ->
  ((current_price >? F64.of_Z 0)%f64 = true ->
   daily_change_pct r = S754_infinity false) /\
  ((current_price =? F64.of_Z 0)%f64 = true ->
   daily_change_pct r = F64.nan).
Proof.
  intros Hh Hr Hpc Hcp.
  apply analyze_stock_some in Hr as (hist' & inf & v & Hh' & _ & Hv & _ & ->).
  assert (hist' = hist) as -> by congruence.
  destruct (of_hist_daily_change_pct _ _ Hv) as (Hcp' & Hpc' & Hd).
  assert (Locals.current_price v = current_price) as Ec by congruence.
  assert (Locals.previous_close v = F64.of_Z 0) as Ep by congruence.
  cbn [daily_change_pct record_of]. rewrite Hd, Ec, Ep.
  split; intros H.
  - now rewrite daily_change_pct_zero_previous.
  - now rewrite daily_change_pct_zero_zero.
Qed.

Lemma zero_previous_close_witness :
  exists r,
    analyze_stock Cases.yf "ZERO" = Some r /\
    daily_change_pct r = S754_infinity false.
Proof.
  destruct (analyze_stock Cases.yf "ZERO") as [r|] eqn:E;
    [| vm_compute in E; discriminate E].
  exists r. split; [reflexivity |].
  refine (proj1 (zero_previous_close Cases.yf "ZERO" Cases.zero_then_one
                   r (F64.of_Z 1) _ E _ _) _); reflexivity.
Defined.

(** ** The shape of the market summary *)

Ltac summary_is_fallback :=
  cbn [spy_change qqq_change vix spy_trend summary_fallback];
  split; [now left | split; [now left | intros; split; discriminate]].

(** X14: whatever the provider does, the summary is either the fallback
    or has both benchmark changes computed as floats and a trend that is
    "Alcista" or "Bajista"; [vix] is a float or the marker "N/A"; and the
    two change fields are never strings, so that the renderer's comparison
    [>= 0] on them cannot raise. *)
Theorem market_summary_shape yf :
  let s := get_market_summary yf in
  (s = summary_fallback \/
   exists a b t,
     spy_change s = PyFloat a /\ qqq_change s = PyFloat b /\
     spy_trend s = PyStr t /\ (t = "Alcista" \/ t = "Bajista")) /\
  (vix s = PyStr "N/A" \/ exists x, vix s = PyFloat x) /\
  (forall str, spy_change s <> PyStr str /\ qqq_change s <> PyStr str).
Proof.
  cbv zeta. unfold get_market_summary.
  destruct (history yf "SPY" "5d") as [spy|]; cbn [bind]; [| summary_is_fallback].
  destruct (history yf "QQQ" "5d") as [qqq|]; cbn [bind]; [| summary_is_fallback].
  destruct (history yf "^VIX" "1d") as [vx|]; cbn [bind]; [| summary_is_fallback].
  destruct (change_pct (Raw.closes spy)) as [a|]; cbn [bind];
    [| summary_is_fallback].
  destruct (change_pct (Raw.closes qqq)) as [b|]; cbn [bind];
    [| summary_is_fallback].
  destruct vx as [|bar vx']; cbn [Series.empty negb bind].
  - destruct (Series.iloc (Raw.closes spy) (-1)) as [x|]; cbn [bind];
      [| summary_is_fallback].
    destruct (Series.iloc (Raw.closes spy) (-5)) as [y|]; cbn [bind];
      [| summary_is_fallback].
    cbn [spy_change qqq_change vix spy_trend].
    split; [| split; [now left | intros; split; discriminate]].
    right. exists a, b. eexists. repeat split.
    destruct (x >? y)%f64; auto.
  - destruct (Series.iloc (Raw.closes (bar :: vx')) (-1)) as [v|]; cbn [bind];
      [| summary_is_fallback].
    destruct (Series.iloc (Raw.closes spy) (-1)) as [x|]; cbn [bind];
      [| summary_is_fallback].
    destruct (Series.iloc (Raw.closes spy) (-5)) as [y|]; cbn [bind];
      [| summary_is_fallback].
    cbn [spy_change qqq_change vix spy_trend].
    split; [| split; [right; eauto | intros; split; discriminate]].
    right. exists a, b. eexists. repeat split.
    destruct (x >? y)%f64; auto.
Qed.

(** X15: when the summary is computed, the trend of SPY is "Alcista"
    exactly when its latest close is strictly above the close five bars
    back; equal closes give "Bajista". *)
Theorem spy_trend_spec yf spy qqq vx latest back :
  history yf "SPY" "5d" = Some spy ->
  history yf "QQQ" "5d" = Some qqq ->
  history yf "^VIX" "1d" = Some vx ->
  (2 <= List.length qqq)%nat ->
  Series.iloc (Raw.closes spy) (-1) = Some latest ->
  Series.iloc (Raw.closes spy) (-5) = Some back ->
  (spy_trend (get_market_summary yf) = PyStr "Alcista"
   <-> (latest >? back)%f64 = true) /\
  (spy_trend (get_market_summary yf) = PyStr "Bajista"
   <-> (latest >? back)%f64 = false) /\
  ((latest =? back)%f64 = true ->
   spy_trend (get_market_summary yf) = PyStr "Bajista").
Proof.
  intros Hs Hq Hv Lq Hl Hb.
  assert (Ls : (5 <= List.length spy)%nat).
  { destruct (Nat.le_gt_cases 5 (List.length spy)) as [L | L]; [exact L |].
    assert (N : Series.iloc (Raw.closes spy) (-5) = None)
      by (apply (iloc_back_none _ 5); now rewrite closes_length).
    congruence. }
  assert (T : spy_trend (get_market_summary yf)
              = PyStr (if (latest >? back)%f64 then "Alcista" else "Bajista")).
  { unfold get_market_summary. rewrite Hs, Hq, Hv. cbn [bind].
    destruct (change_pct_some (Raw.closes spy)) as [a ->];
      [rewrite closes_length; lia |].
    destruct (change_pct_some (Raw.closes qqq)) as [b ->];
      [rewrite closes_length; lia |].
    cbn [bind]. rewrite Hl, Hb.
    destruct vx as [|bar vx'].
    - reflexivity.
    - cbn [Series.empty negb].
      destruct (iloc_last_some (Raw.closes (bar :: vx'))) as [x ->];
        [discriminate | reflexivity]. }
  rewrite T.
  assert (E : (latest =? back)%f64 = true -> (latest >? back)%f64 = false).
  { intros H. apply F64Facts.eqb_not_ltb in H as [_ H]. exact H. }
  destruct (latest >? back)%f64; repeat split; intros; try discriminate;
    try reflexivity.
  specialize (E H). discriminate E.
Qed.

Lemma spy_trend_spec_witness :
  spy_trend (get_market_summary Cases.week) = PyStr "Bajista".
Proof.
  refine (proj2 (proj2 (spy_trend_spec Cases.week
                          (repeat (Sample.bar 100 1000) 5)
                          (repeat (Sample.bar 100 1000) 5)
                          [] (F64.of_Z 100) (F64.of_Z 100)
                          _ _ _ _ _ _)) _);
    try reflexivity.
  cbn. lia.
Defined.

(** ** Publisher *)

Lemma status_ok_iff code :
  (code =? 200) || (code =? 201) = true <-> code = 200 \/ code = 201.
Proof.
  rewrite orb_true_iff, !Z.eqb_eq. reflexivity.
Qed.

(** X16: [send_to_beehiiv] always posts a draft without a send date, and
    it returns [True] exactly when the transport answers with status 200 or
    201 and a body that parses to a JSON object whose key ["data"], if
    present, holds an object.  A connection error, any other status, a body
    that is not JSON, a JSON body that is not an object and a ["data"] that
    is not an object all give [False], the last three although the post was
    created. *)
Theorem send_to_beehiiv_true_iff cfg post subject html_content :
  let req := beehiiv_request cfg subject html_content in
  status (body req) = "draft" /\
  send_at (body req) = None /\
  (send_to_beehiiv cfg post subject html_content = true <->
   exists r, post req = Some r /\ created_post r).
Proof.
  cbv zeta. split; [reflexivity |]. split; [reflexivity |].
  unfold send_to_beehiiv, created_post.
  destruct (post (beehiiv_request cfg subject html_content)) as [r|];
    cbn [bind].
  - destruct ((status_code r =? 200) || (status_code r =? 201)) eqn:S.
    + apply status_ok_iff in S.
      destruct (json_body r) as [[|b|n|s|items|fields]|] eqn:J;
        cbn [bind json_get];
        try (split; [discriminate |];
             intros (r' & E & _ & fs & Hb & _); injection E as <-;
             congruence).
      destruct (assoc "data" fields) as [[|b|n|s|items|inner]|] eqn:A;
        cbn [get bind json_get];
        try (split; [discriminate |];
             intros (r' & E & _ & fs & Hb & [Hn | (i & Hi)]);
             injection E as <-;
             assert (fs = fields) as -> by congruence; congruence).
      * split; [intros _ | reflexivity].
        exists r. repeat split; trivial. exists fields. split; [exact J |].
        right. now exists inner.
      * split; [intros _ | reflexivity].
        exists r. repeat split; trivial. exists fields. split; [exact J |].
        now left.
    + split; [discriminate |].
      intros (r' & E & Hs & _). injection E as <-.
      apply status_ok_iff in Hs. congruence.
  - split; [discriminate |]. intros (r' & E & _). discriminate E.
Qed.

(** A created post answered with a JSON array is reported as not sent. *)
Example created_but_reported_failed cfg subject html_content :
  send_to_beehiiv cfg
    (fun _ => Some {| status_code := 201; json_body := Some (JArr []) |})
    subject html_content
  = false.
Proof. reflexivity. Qed.

(** ** The order of the watchlist *)

Lemma leb_antisym_eqb x y :
  F64.leb x y = true -> F64.leb y x = true -> F64.eqb x y = true.
Proof.
  unfold F64.leb, F64.eqb, SFleb, SFeqb.
  destruct (SFcompare x y) as [c|] eqn:E; [| discriminate].
  rewrite (F64Facts.compare_antisym _ _ _ E).
  destruct c; cbn; congruence.
Qed.

Section Unique.
Context {A : Type} (key : A -> F64.t).

(** The descending arrangement of a list is unique as soon as elements of
    equal key are equal. *)
Lemma descending_unique (l1 l2 : list A) :
  (forall a b, In a l1 -> In b l1 -> (key a =? key b)%f64 = true -> a = b) ->
  descending key l1 -> descending key l2 -> Permutation l1 l2 -> l1 = l2.
Proof.
  revert l2. induction l1 as [|x t1 IH]; intros l2 Heq D1 D2 P.
  - now apply Permutation_nil in P.
  - destruct l2 as [|y t2].
    + apply Permutation_sym, Permutation_nil in P. discriminate P.
    + assert (E : x = y).
      { assert (Hx : In x (y :: t2))
          by (apply (Permutation_in _ P); now left).
        assert (Hy : In y (x :: t1))
          by (apply (Permutation_in _ (Permutation_sym P)); now left).
        destruct Hx as [-> | Hx]; [reflexivity |].
        destruct Hy as [-> | Hy]; [reflexivity |].
        apply StronglySorted_inv in D1 as [_ F1].
        apply StronglySorted_inv in D2 as [_ F2].
        rewrite Forall_forall in F1, F2.
        specialize (F1 y Hy). specialize (F2 x Hx).
        unfold before, F64.geb in F1, F2.
        apply Heq; [now left | now right |].
        apply leb_antisym_eqb; assumption. }
      subst y. f_equal. apply IH.
      * intros a b Ha Hb. apply Heq; now right.
      * now apply StronglySorted_inv in D1.
      * now apply StronglySorted_inv in D2.
      * now apply Permutation_cons_inv in P.
Qed.

Lemma no_nan_perm (l l' : list A) :
  Permutation l l' -> no_nan key l -> no_nan key l'.
Proof.
  unfold no_nan. intros P H. rewrite Forall_forall in *.
  intros a Ha. apply H. now apply (Permutation_in _ (Permutation_sym P)).
Qed.

Lemma sort_reverse_perm_invariant (l l' : list A) :
  Permutation l l' -> no_nan key l ->
  (forall a b, In a l -> In b l -> (key a =? key b)%f64 = true -> a = b) ->
  sort_reverse key l = sort_reverse key l'.
Proof.
  intros P Hn Heq. apply descending_unique.
  - intros a b Ha Hb. apply Heq;
      now apply (Permutation_in _ (sort_reverse_perm key l)).
  - now apply sort_reverse_descending.
  - apply sort_reverse_descending. now apply (no_nan_perm l).
  - eapply perm_trans; [apply sort_reverse_perm |].
    eapply perm_trans; [exact P |].
    apply Permutation_sym, sort_reverse_perm.
Qed.

End Unique.

(** X17: the order of the watchlist matters for ties only.  When no score
    is NaN and records of equal score are equal, two watchlists that are
    permutations of each other get the same ranking. *)
Theorem ranking_order_independent yf watchlist watchlist' limit :
  Permutation watchlist watchlist' ->
  no_nan movement_score (analyzed_stocks yf watchlist) ->
  (forall a b,
      In a (analyzed_stocks yf watchlist) ->
      In b (analyzed_stocks yf watchlist) ->
      (movement_score a =? movement_score b)%f64 = true -> a = b) ->
  get_top_movers_of watchlist yf limit = get_top_movers_of watchlist' yf limit.
Proof.
  intros P Hn Heq. unfold get_top_movers_of. f_equal.
  apply sort_reverse_perm_invariant; try assumption.
  rewrite !analyzed_stocks_flat_map. now apply Permutation_flat_map.
Qed.

Lemma ranking_order_independent_witness :
  get_top_movers_of ["B"; "A"; "UP"] Sample.yf 2
  = get_top_movers_of ["UP"; "B"; "A"] Sample.yf 2.
Proof.
  apply ranking_order_independent.
  - apply Permutation_sym. apply (Permutation_cons_app ["B"; "A"] [] "UP").
    apply Permutation_refl.
  - vm_compute. repeat constructor.
  - intros a b Ha Hb.
    destruct (analyze_stock Sample.yf "B") as [rb|] eqn:Eb;
      [| vm_compute in Eb; discriminate Eb].
    destruct (analyze_stock Sample.yf "A") as [ra|] eqn:Ea;
      [| vm_compute in Ea; discriminate Ea].
    destruct (analyze_stock Sample.yf "UP") as [ru|] eqn:Eu;
      [| vm_compute in Eu; discriminate Eu].
    assert (S : analyzed_stocks Sample.yf ["B"; "A"; "UP"]
                = [with_score rb; with_score ra; with_score ru]).
    { unfold analyzed_stocks. cbn [fold_left]. rewrite Eb, Ea, Eu.
      reflexivity. }
    rewrite S in Ha, Hb.
    vm_compute in Eb. injection Eb as <-.
    vm_compute in Ea. injection Ea as <-.
    vm_compute in Eu. injection Eu as <-.
    destruct Ha as [<- | [<- | [<- | []]]];
      destruct Hb as [<- | [<- | [<- | []]]];
      intros H; try reflexivity; vm_compute in H; discriminate H.
Defined.

(** ** The newsletter's top five *)

Lemma no_repeat_NoDup (l : list string) : no_repeat l = true -> NoDup l.
Proof.
  induction l as [|x t IH]; cbn [no_repeat]; intros H; [constructor |].
  apply andb_true_iff in H as [Hx Ht]. constructor; [| now apply IH].
  intros Hin. apply negb_true_iff in Hx.
  assert (E : existsb (String.eqb x) t = true).
  { apply existsb_exists. exists x. split; [exact Hin | apply String.eqb_refl]. }
  congruence.
Qed.

Lemma top_movers_symbols yf watchlist limit :
  exists n l,
    map (fun m => symbol (data m)) (get_top_movers_of watchlist yf limit)
    = firstn n l /\
    Permutation l (filter (analysed yf) watchlist).
Proof.
  unfold get_top_movers_of.
  destruct (slice_to_firstn
              (sort_reverse movement_score (analyzed_stocks yf watchlist))
              limit) as [n ->].
  exists n, (map (fun m => symbol (data m))
               (sort_reverse movement_score (analyzed_stocks yf watchlist))).
  split; [symmetry; apply firstn_map |].
  rewrite <- analyzed_stocks_symbols. apply Permutation_map, sort_reverse_perm.
Qed.

(** X18: as [main] calls it, on the script's [WATCHLIST] and with limit 5,
    [get_top_movers] returns at most five records, each for a ticker of the
    list, and never the same ticker twice, whatever the provider answers. *)
Theorem top_five yf :
  let top_stocks := get_top_movers yf 5 in
  (List.length top_stocks <= 5)%nat /\
  Forall (fun m => In (symbol (data m)) WATCHLIST) top_stocks /\
  NoDup (map (fun m => symbol (data m)) top_stocks).
Proof.
  cbv zeta. unfold get_top_movers.
  destruct (top_movers_symbols yf WATCHLIST 5) as (n & l & E & P).
  split; [| split].
  - unfold get_top_movers_of. rewrite slice_to_nonneg by lia.
    apply firstn_le_length.
  - apply Forall_forall. intros m Hm.
    apply (in_map (fun m => symbol (data m))) in Hm. rewrite E in Hm.
    assert (Hl : In (symbol (data m)) l).
    { rewrite <- (firstn_skipn n l). apply in_or_app. now left. }
    apply (Permutation_in _ P), filter_In in Hl. apply Hl.
  - rewrite E. apply NoDup_firstn.
    apply (Permutation_NoDup (Permutation_sym P)), NoDup_filter.
    apply no_repeat_NoDup. reflexivity.
Qed.
